(** * Mood Streak: the analytics and layout engine of [src/App.tsx]

    A shallow embedding of the computation helpers of the mood tracker
    (date keys, streaks, weekly trend, 30-day frequency, heatmap grid and
    month labels) together with the properties its specification states.

    Platform model.  The program observes a JavaScript [Date] only through
    its local calendar fields ([getFullYear], [getMonth], [getDate],
    [getDay]), through [setDate] with a day offset, and through
    [toISOString].  A local calendar day is therefore represented by its day
    number [Z] (0 is 1970-01-01, a Thursday) in the proleptic Gregorian
    calendar; [setDate(getDate() - i)] is the day number minus [i].  Time
    zones whose local calendar skips or repeats a day are outside the model.
    Numbers are [Z] or [nat] where the program only ever holds small
    integers, and IEEE binary64 ([float]) where it divides and compares
    quotients.  The objects the program uses as maps are finite maps over
    their own properties.  Where the label of a record indexes an object
    literal ([POSITIVITY], and the [counts] of [getMostFrequentLabel]) the
    members the literal inherits from [Object.prototype] are modelled as
    well.  The history [data] is only ever indexed by date keys, and the
    [counts] of [getFrequencyIn30Days] is only read back at the labels of
    the catalog; none of these is an inherited name. *)

From Stdlib Require Import ZArith Lia Floats Uint63 QArith Sorted.
From Stdlib Require Import Ascii String.
From stdpp Require Import gmap strings list pretty.

Open Scope Z_scope.

(** ** The platform calendar *)

(** Day number to (year, month 1..12, day of month 1..31). *)
Definition civil_from_days (z : Z) : Z * Z * Z :=
  let z := z + 719468 in
  let era := z / 146097 in
  let doe := z - era * 146097 in
  let yoe := (doe - doe / 1460 + doe / 36524 - doe / 146096) / 365 in
  let doy := doe - (365 * yoe + yoe / 4 - yoe / 100) in
  let mp := (5 * doy + 2) / 153 in
  let d := doy - (153 * mp + 2) / 5 + 1 in
  let m := if mp <? 10 then mp + 3 else mp - 9 in
  (yoe + era * 400 + (if m <=? 2 then 1 else 0), m, d).

(** (year, month 1..12, day of month) to day number; the day of month may
    lie outside the month, as [MakeDay] allows. *)
Definition days_from_civil (y m d : Z) : Z :=
  let y := if m <=? 2 then y - 1 else y in
  let era := y / 400 in
  let yoe := y - era * 400 in
  let doy := (153 * (if 2 <? m then m - 3 else m + 9) + 2) / 5 + d - 1 in
  let doe := yoe * 365 + yoe / 4 - yoe / 100 + doy in
  era * 146097 + doe - 719468.

Definition getFullYear (day : Z) : Z := (civil_from_days day).1.1.
(** [getMonth] is zero-based, as in JavaScript. *)
Definition getMonth (day : Z) : Z := (civil_from_days day).1.2 - 1.
Definition getDate (day : Z) : Z := (civil_from_days day).2.
(** 0 = Sunday .. 6 = Saturday; day 0 is a Thursday. *)
Definition getDay (day : Z) : Z := (day + 4) mod 7.

(** [new Date(year, monthIndex, date)] read as a local calendar day: years
    0..99 denote 1900..1999, and month and date overflow carry over. *)
Definition Date_of_fields (year monthIndex date : Z) : Z :=
  let year := if (0 <=? year) && (year <=? 99) then 1900 + year else year in
  let ym := year + monthIndex / 12 in
  let mn := monthIndex mod 12 in
  days_from_civil ym (mn + 1) 1 + (date - 1).

(** [toLocaleDateString('en-US', { month: 'short' })] of a month index. *)
Definition shortMonthName (monthIndex : Z) : string :=
  match monthIndex with
  | 0 => "Jan" | 1 => "Feb" | 2 => "Mar" | 3 => "Apr"
  | 4 => "May" | 5 => "Jun" | 6 => "Jul" | 7 => "Aug"
  | 8 => "Sep" | 9 => "Oct" | 10 => "Nov" | _ => "Dec"
  end.

(** What one reading of the wall clock ([new Date()]) lets the program see. *)
Record Date := mkDate {
  localDay : Z;
  toISOString : string
}.

(** ** Types *)

Record MoodEntry := mkMoodEntry {
  emoji : string;
  label : string;
  color : string;
  timestamp : string
}.

Record MoodOption := mkMoodOption {
  mo_emoji : string;
  mo_label : string;
  mo_color : string
}.

(** [MoodData]: a JavaScript object used as a map from date key to entry. *)
Abbreviation MoodData := (gmap string MoodEntry).

Record HeatCell := mkHeatCell {
  dateKey : string;
  col : Z;
  row : Z
}.

(** ** Constants *)

Definition MOODS : list MoodOption :=
  [ mkMoodOption "😄" "Joyful" "#FFD700";
    mkMoodOption "😊" "Good" "#86EFAC";
    mkMoodOption "😐" "Neutral" "#9CA3AF";
    mkMoodOption "😔" "Low" "#93C5FD";
    mkMoodOption "😢" "Sad" "#60A5FA";
    mkMoodOption "😡" "Angry" "#EF4444";
    mkMoodOption "😰" "Anxious" "#FB923C";
    mkMoodOption "😴" "Tired" "#A78BFA" ].

Definition POSITIVITY : gmap string Z :=
  list_to_map
    [ ("Joyful", 8); ("Good", 7); ("Neutral", 5); ("Low", 4);
      ("Tired", 4); ("Anxious", 3); ("Sad", 2); ("Angry", 1) ].

Definition DAYS_IN_HEATMAP : Z := 84.

(** ** The wall clock

    Every [new Date()] in the program is a fresh reading of the wall clock.
    A computation is run against a trace of readings [clock] and the number
    of readings made so far. *)

Definition Clk (A : Type) : Type := (nat -> Date) -> nat -> A * nat.

#[global] Instance Clk_ret : MRet Clk := fun A a _ k => (a, k).
#[global] Instance Clk_bind : MBind Clk :=
  fun A B f c clock k => let '(a, k') := c clock k in f a clock k'.
Definition new_Date : Clk Date := fun clock k => (clock k, S k).
Definition run {A} (c : Clk A) (clock : nat -> Date) (k : nat) : A :=
  (c clock k).1.

(** ** Date helpers *)

(** [s.padStart(targetLength, c)] for a one-character filler. *)
Fixpoint fill (n : nat) (c : Ascii.ascii) (s : string) : string :=
  match n with
  | O => s
  | S n' => String c (fill n' c s)
  end.

Definition padStart (s : string) (targetLength : nat) (c : Ascii.ascii) : string :=
  fill (targetLength - String.length s) c s.

Definition getDateKey (date : Z) : string :=
  let y := getFullYear date in
  let m := padStart (pretty (getMonth date + 1)) 2 "0"%char in
  let d := padStart (pretty (getDate date)) 2 "0"%char in
  pretty y +:+ "-" +:+ m +:+ "-" +:+ d.

Definition getTodayKey : Clk string :=
  now ← new_Date; mret (getDateKey (localDay now)).

(** ** Computation helpers *)

(** The [for] loop of [computeCurrentStreak]: [i] is the loop variable and
    [n] the number of values of [i] still below 365. *)
Fixpoint streakLoop (data : MoodData) (today : Z) (i : Z) (n : nat)
    (streak : nat) : nat :=
  match n with
  | O => streak
  | S n' =>
      match data !! getDateKey (today - i) with
      | Some _ => streakLoop data today (i + 1) n' (S streak)
      | None => streak
      end
  end.

(** [computeCurrentStreak] once [today] has been read from the clock. *)
Definition computeCurrentStreak_at (today : Z) (data : MoodData) : nat :=
  let todayKey := getDateKey today in
  let startOffset := match data !! todayKey with Some _ => 0 | None => 1 end in
  streakLoop data today startOffset (Z.to_nat (365 - startOffset)) 0.

Definition computeCurrentStreak (data : MoodData) : Clk nat :=
  today ← new_Date; mret (computeCurrentStreak_at (localDay today) data).

(** [Object.keys(data)]; the order is left to the map, every use sorts it. *)
Definition Object_keys (data : MoodData) : list string := (map_to_list data).*1.

(** [Array.prototype.sort(cmp)]: a stable sort, an element goes before the
    first later one it does not compare greater than. *)
Fixpoint sort_insert {A} (cmp : A -> A -> Z) (x : A) (l : list A) : list A :=
  match l with
  | [] => [x]
  | y :: l' => if cmp x y <=? 0 then x :: y :: l' else y :: sort_insert cmp x l'
  end.

Fixpoint Array_sort {A} (cmp : A -> A -> Z) (l : list A) : list A :=
  match l with
  | [] => []
  | x :: l' => sort_insert cmp x (Array_sort cmp l')
  end.

(** The default comparator of [sort()] on strings: code unit order. *)
Definition string_cmp (a b : string) : Z :=
  match String.compare a b with Lt => -1 | Eq => 0 | Gt => 1 end.

(** [s.split(c)] *)
Fixpoint split (c : ascii) (s : string) : list string :=
  match s with
  | EmptyString => [EmptyString]
  | String a s' =>
      let r := split c s' in
      if Ascii.eqb a c then EmptyString :: r
      else match r with
           | [] => [String a EmptyString]
           | p :: ps => String a p :: ps
           end
  end.

Definition digit_of (a : ascii) : option Z :=
  let n := Z.of_N (N_of_ascii a) in
  if (48 <=? n) && (n <=? 57) then Some (n - 48) else None.

Fixpoint digits (s : string) (acc : Z) : option Z :=
  match s with
  | EmptyString => Some acc
  | String a s' =>
      match digit_of a with
      | Some d => digits s' (10 * acc + d)
      | None => None
      end
  end.

(** [Number(s)] on the strings date keys are made of: a run of decimal
    digits is its value, the empty string is 0, and [None] stands for NaN.
    (JavaScript also reads signs, blanks, fractions, exponents and radix
    prefixes; no date key written by [getDateKey] has any.) *)
Definition Number (s : string) : option Z := digits s 0.

(** [const [y, m, d] = key.split('-').map(Number); new Date(y, m - 1, d)]:
    the local day of a key, [None] for an invalid date. *)
Definition dateOfKey (key : string) : option Z :=
  match Number <$> split "-" key with
  | Some y :: Some m :: Some d :: _ => Some (Date_of_fields y (m - 1) d)
  | _ => None
  end.

(** [Math.round((curr.getTime() - prev.getTime()) / 86_400_000)]: local
    midnights of two calendar days differ by whole days up to a clock
    change of a few hours, which the rounding absorbs. *)
Definition diffDays (prevKey currKey : string) : option Z :=
  match dateOfKey prevKey, dateOfKey currKey with
  | Some prev, Some curr => Some (curr - prev)
  | _, _ => None
  end.

(** The [for] loop of [computeBestStreak] over [keys[i - 1]], [keys[i]]. *)
Fixpoint bestLoop (prevKey : string) (rest : list string) (best current : nat)
    : nat :=
  match rest with
  | [] => best
  | key :: rest' =>
      match diffDays prevKey key with
      | Some 1 =>
          let current := S current in
          let best := if (best <? current)%nat then current else best in
          bestLoop key rest' best current
      | _ => bestLoop key rest' best 1%nat
      end
  end.

(** [computeBestStreak] once the clock has been read (which it does inside
    its call of [computeCurrentStreak]). *)
Definition computeBestStreak_at (today : Z) (data : MoodData) : nat :=
  match Array_sort string_cmp (Object_keys data) with
  | [] => 0%nat
  | key0 :: rest =>
      let best := bestLoop key0 rest 1 1 in
      let cs := computeCurrentStreak_at today data in
      Nat.max best cs
  end.

Definition computeBestStreak (data : MoodData) : Clk nat :=
  match Array_sort string_cmp (Object_keys data) with
  | [] => mret 0%nat
  | key0 :: rest =>
      let best := bestLoop key0 rest 1 1 in
      cs ← computeCurrentStreak data;
      mret (Nat.max best cs)
  end.

(** The [for] loop of [getWeekEntries]. *)
Fixpoint weekLoop (data : MoodData) (today : Z) (i : Z) (n : nat)
    (entries : list MoodEntry) : list MoodEntry :=
  match n with
  | O => entries
  | S n' =>
      let entries :=
        match data !! getDateKey (today - i) with
        | Some entry => entries ++ [entry]
        | None => entries
        end in
      weekLoop data today (i + 1) n' entries
  end.

Definition getWeekEntries_at (today : Z) (data : MoodData) (startDaysAgo : Z)
    : list MoodEntry :=
  weekLoop data today startDaysAgo 7 [].

Definition getWeekEntries (data : MoodData) (startDaysAgo : Z)
    : Clk (list MoodEntry) :=
  today ← new_Date; mret (getWeekEntries_at (localDay today) data startDaysAgo).

(** *** Numbers that are divided or compared: IEEE binary64 *)

Definition nat2float (n : nat) : float := PrimFloat.of_uint63 (Uint63.of_Z (Z.of_nat n)).
Definition Z2float (z : Z) : float :=
  if z <? 0 then (- PrimFloat.of_uint63 (Uint63.of_Z (- z)))%float
  else PrimFloat.of_uint63 (Uint63.of_Z z).

(** [Math.max(a, b)] *)
Definition Math_max (a b : float) : float :=
  if PrimFloat.is_nan a || PrimFloat.is_nan b then PrimFloat.nan
  else if (a <? b)%float then b
  else if (b <? a)%float then a
  else if PrimFloat.is_zero a then (a + b)%float
  else a.

(** The names an object literal inherits from [Object.prototype]: eleven
    functions, and the accessor [__proto__], which reads as an object and
    ignores the assignment of anything but an object or null. *)
Definition Object_prototype : list string :=
  [ "constructor"; "hasOwnProperty"; "isPrototypeOf"; "propertyIsEnumerable";
    "toLocaleString"; "toString"; "valueOf"; "__defineGetter__";
    "__defineSetter__"; "__lookupGetter__"; "__lookupSetter__"; "__proto__" ].

(** What a chain of [+] holds that starts from a number: a number, or, once
    a function or an object has been added, a string.  The string holds the
    text of that function or object and reads as no number: [Number] of it
    is NaN, and so is every comparison with it. *)
Inductive Added (A : Type) : Type :=
  | Num (x : A)
  | Text.
Arguments Num {A} x.
Arguments Text {A}.

(** [POSITIVITY[label] ?? 5]: the score the table has for the label; for a
    name the table inherits, the inherited function or object, which is not
    nullish and so is kept ([None]); 5 for every other label. *)
Definition positivityOf (label : string) : option Z :=
  match POSITIVITY !! label with
  | Some score => Some score
  | None => if bool_decide (label ∈ Object_prototype) then None else Some 5
  end.

(** [entries.reduce((sum, e) => sum + (POSITIVITY[e.label] ?? 5), 0) /
    entries.length], 0 for no entries.  A sum that has become a string
    divides to NaN. *)
Definition avgPositivity (entries : list MoodEntry) : float :=
  if (length entries =? 0)%nat then 0%float
  else
    match fold_left (fun sum e =>
                       match sum, positivityOf (label e) with
                       | Num x, Some score => Num (x + Z2float score)%float
                       | _, _ => Text
                       end) entries (Num 0%float) with
    | Num x => (x / nat2float (length entries))%float
    | Text => PrimFloat.nan
    end.

Definition getMoodByLabel (l : string) : option MoodOption :=
  List.find (fun m => String.eqb (mo_label m) l) MOODS.

Record FreqEntry := mkFreqEntry {
  mood : MoodOption;
  count : nat
}.

(** The [for] loop of [getFrequencyIn30Days]. *)
Fixpoint freqLoop (data : MoodData) (today : Z) (i : Z) (n : nat)
    (counts : gmap string nat) : gmap string nat :=
  match n with
  | O => counts
  | S n' =>
      let counts :=
        match data !! getDateKey (today - i) with
        | Some entry =>
            <[label entry := (default 0 (counts !! label entry) + 1)%nat]> counts
        | None => counts
        end in
      freqLoop data today (i + 1) n' counts
  end.

Definition getFrequencyIn30Days_at (today : Z) (data : MoodData)
    : list FreqEntry :=
  let counts := freqLoop data today 0 30 ∅ in
  Array_sort (fun a b => Z.of_nat (count b) - Z.of_nat (count a))
    (List.filter (fun m => (0 <? count m)%nat)
       (List.map (fun mood => mkFreqEntry mood (default 0%nat (counts !! mo_label mood)))
          MOODS)).

Definition getFrequencyIn30Days (data : MoodData) : Clk (list FreqEntry) :=
  today ← new_Date; mret (getFrequencyIn30Days_at (localDay today) data).

(** [frequency30.reduce((max, m) => Math.max(max, m.count), 1)] *)
Definition maxFreq (frequency30 : list FreqEntry) : nat :=
  fold_left (fun max m => Nat.max max (count m)) frequency30 1%nat.

(** The width of a frequency bar, in percent:
    [Math.max((count / maxFreq) * 100, 10)]. *)
Definition barWidth (count maxFreq : nat) : float :=
  Math_max ((nat2float count / nat2float maxFreq) * 100)%float 10%float.

(** ** Heatmap helpers *)

Abbreviation Grid := (list (list (option HeatCell))).

(** [Array(7).fill(null).map(() => Array(12).fill(null))] *)
Definition emptyGrid : Grid := replicate 7 (replicate 12 None).

(** [grid[row][col] = cell] *)
Definition grid_set (grid : Grid) (row col : Z) (cell : HeatCell) : Grid :=
  alter (fun r => <[Z.to_nat col := Some cell]> r) (Z.to_nat row) grid.

Definition grid_get (grid : Grid) (row col : Z) : option HeatCell :=
  match grid !! Z.to_nat row with
  | Some r => match r !! Z.to_nat col with Some c => c | None => None end
  | None => None
  end.

(** The [for] loop of [buildHeatmapCells]; [%] is the truncating remainder
    and [Math.floor(pos / 7)] the floor quotient. *)
Fixpoint heatLoop (today todayDow : Z) (i : Z) (n : nat) (grid : Grid) : Grid :=
  match n with
  | O => grid
  | S n' =>
      let d := today - i in
      let pos := todayDow + 77 - i in
      if pos <? 0 then heatLoop today todayDow (i + 1) n' grid
      else
        let col := pos / 7 in
        let row := Z.rem pos 7 in
        let grid :=
          if (0 <=? col) && (col <? 12) && (0 <=? row) && (row <? 7)
          then grid_set grid row col (mkHeatCell (getDateKey d) col row)
          else grid in
        heatLoop today todayDow (i + 1) n' grid
  end.

Definition buildHeatmapCells_at (today : Z) : Grid :=
  let todayDow := getDay today in
  heatLoop today todayDow 0 (Z.to_nat DAYS_IN_HEATMAP) emptyGrid.

Definition buildHeatmapCells : Clk Grid :=
  today ← new_Date; mret (buildHeatmapCells_at (localDay today)).

Record MonthLabel := mkMonthLabel {
  ml_label : string;
  ml_col : Z
}.

(** The inner [for] loop of [getMonthLabels] over the rows of one column;
    the state is [(labels, lastMonth)]. *)
Fixpoint rowLoop (today todayDow col : Z) (row : Z) (n : nat)
    (st : list MonthLabel * Z) : list MonthLabel * Z :=
  match n with
  | O => st
  | S n' =>
      let pos := col * 7 + row in
      let daysAgo := todayDow + 77 - pos in
      if (daysAgo <? 0) || (DAYS_IN_HEATMAP <=? daysAgo)
      then rowLoop today todayDow col (row + 1) n' st
      else
        let d := today - daysAgo in
        let month := getMonth d in
        if bool_decide (month ≠ st.2)
        then (st.1 ++ [mkMonthLabel (shortMonthName (getMonth d)) col], month)
        else st
  end.

(** The outer loop over the columns. *)
Fixpoint colLoop (today todayDow : Z) (col : Z) (n : nat)
    (st : list MonthLabel * Z) : list MonthLabel * Z :=
  match n with
  | O => st
  | S n' => colLoop today todayDow (col + 1) n' (rowLoop today todayDow col 0 7 st)
  end.

Definition getMonthLabels_at (today : Z) : list MonthLabel :=
  let todayDow := getDay today in
  (colLoop today todayDow 0 12 ([], -1)).1.

Definition getMonthLabels : Clk (list MonthLabel) :=
  today ← new_Date; mret (getMonthLabels_at (localDay today)).

(** ** Main App *)

(** The trend verdicts, with the message each one sets. *)
Inductive Trend :=
  | NoData | NothingThisWeek | InsufficientHistory | Upward | Downward | Steady.

Definition trendMessage (t : Trend) : string :=
  match t with
  | NoData => "Start logging your moods to see weekly insights!"
  | NothingThisWeek => "No entries yet this week — how are you feeling?"
  | InsufficientHistory => "Keep logging to unlock week-over-week comparisons!"
  | Upward => "You're on an upward trend! Keep shining!"
  | Downward => "Rough patch? It's okay — better days are coming."
  | Steady => "Steady vibes this week. Balance is beautiful!"
  end.

(** The trend determination of [App]. *)
Definition trendOf (currentWeekEntries prevWeekEntries : list MoodEntry)
    (currentAvg prevAvg : float) : Trend :=
  if (length currentWeekEntries =? 0)%nat && (length prevWeekEntries =? 0)%nat
  then NoData
  else if (length currentWeekEntries =? 0)%nat then NothingThisWeek
  else if (length prevWeekEntries =? 0)%nat then InsufficientHistory
  else if (prevAvg + 0.5 <? currentAvg)%float then Upward
  else if (currentAvg <? prevAvg - 0.5)%float then Downward
  else Steady.

(** The trend of a history on a given day. *)
Definition trend_at (today : Z) (data : MoodData) : Trend :=
  let currentWeekEntries := getWeekEntries_at today data 0 in
  let prevWeekEntries := getWeekEntries_at today data 7 in
  trendOf currentWeekEntries prevWeekEntries
    (avgPositivity currentWeekEntries) (avgPositivity prevWeekEntries).

(** The state [App] keeps: the history, and the grid and month labels, which
    [useState] computes once, when the component is mounted. *)
Record AppState := mkAppState {
  moodData : MoodData;
  todayMood : option MoodOption;
  heatmapCells : Grid;
  monthLabels : list MonthLabel
}.

(** The state initialisers, run on the first render; [stored] is what
    [loadMoodData] returns. *)
Definition App_mount (stored : MoodData) : Clk AppState :=
  todayKey ← getTodayKey;
  let mood :=
    match stored !! todayKey with
    | Some entry => getMoodByLabel (label entry)
    | None => None
    end in
  cells ← buildHeatmapCells;
  labels ← getMonthLabels;
  mret (mkAppState stored mood cells labels).

(** [handleMoodSelect] once the clock has been read: [today] is the day of
    [getTodayKey()] and [stamp] the [toISOString()] of the second reading. *)
Definition handleMoodSelect_at (today : Z) (stamp : string) (mood : MoodOption)
    (moodData : MoodData) : MoodData :=
  let entry := mkMoodEntry (mo_emoji mood) (mo_label mood) (mo_color mood) stamp in
  <[getDateKey today := entry]> moodData.

Definition handleMoodSelect (mood : MoodOption) (st : AppState) : Clk AppState :=
  today ← new_Date;
  stamp ← new_Date;
  let newData := handleMoodSelect_at (localDay today) (toISOString stamp) mood (moodData st) in
  mret (mkAppState newData (Some mood) (heatmapCells st) (monthLabels st)).

(** [handleReset]: [localStorage.removeItem] and the state updates share one
    [try] block, so the state is only reset when the removal does not
    throw ([removeThrows] says whether it does). *)
Definition handleReset (removeThrows : bool) (st : AppState) : AppState :=
  if removeThrows then st
  else mkAppState ∅ None (heatmapCells st) (monthLabels st).

(** The [useEffect] that follows every change of [moodData]: [todayMood]
    becomes the catalog mood of today's record, if there is one. *)
Definition syncTodayMood (todayKey : string) (moodData : MoodData)
    : option MoodOption :=
  match moodData !! todayKey with
  | Some entry => getMoodByLabel (label entry)
  | None => None
  end.

(** What one render pass computes and shows. *)
Record Analytics := mkAnalytics {
  currentStreak : nat;
  bestStreak : nat;
  currentWeekEntries : list MoodEntry;
  prevWeekEntries : list MoodEntry;
  frequency30 : list FreqEntry;
  todayKey : string;
  trend : Trend;
  shownCells : Grid;
  shownLabels : list MonthLabel
}.

(** The computed values of [App], in the order the component body
    evaluates them; the grid and labels come from the state. *)
Definition App_render (st : AppState) : Clk Analytics :=
  currentStreak ← computeCurrentStreak (moodData st);
  bestStreak ← computeBestStreak (moodData st);
  currentWeekEntries ← getWeekEntries (moodData st) 0;
  prevWeekEntries ← getWeekEntries (moodData st) 7;
  let currentAvg := avgPositivity currentWeekEntries in
  let prevAvg := avgPositivity prevWeekEntries in
  frequency30 ← getFrequencyIn30Days (moodData st);
  todayKey ← getTodayKey;
  mret (mkAnalytics currentStreak bestStreak currentWeekEntries prevWeekEntries
          frequency30 todayKey
          (trendOf currentWeekEntries prevWeekEntries currentAvg prevAvg)
          (heatmapCells st) (monthLabels st)).

(** The [useEffect] itself: it reads the clock for today's key. *)
Definition App_effect (st : AppState) : Clk AppState :=
  todayKey ← getTodayKey;
  mret (mkAppState (moodData st) (syncTodayMood todayKey (moodData st))
          (heatmapCells st) (monthLabels st)).

(** What the user does between two render passes. *)
Inductive Event :=
  | LogMood (mood : MoodOption)
  | ResetAll (removeThrows : bool).

Definition App_event (ev : Event) (st : AppState) : Clk AppState :=
  match ev with
  | LogMood mood => handleMoodSelect mood st
  | ResetAll removeThrows => mret (handleReset removeThrows st)
  end.

(** The state after some events: each event is followed by the render pass
    it causes and by the effect. *)
Fixpoint App_events (events : list Event) (st : AppState) : Clk AppState :=
  match events with
  | [] => mret st
  | ev :: events' =>
      st ← App_event ev st;
      _ ← App_render st;
      st ← App_effect st;
      App_events events' st
  end.

(** The state of the component after it was mounted on [stored] and the
    events were handled. *)
Definition App_session (stored : MoodData) (events : list Event) : Clk AppState :=
  st ← App_mount stored;
  _ ← App_render st;
  st ← App_effect st;
  App_events events st.

(** The same pass with one instant [today] given to every computation. *)
Definition analytics_at (today : Z) (data : MoodData) : Analytics :=
  let currentWeekEntries := getWeekEntries_at today data 0 in
  let prevWeekEntries := getWeekEntries_at today data 7 in
  mkAnalytics (computeCurrentStreak_at today data) (computeBestStreak_at today data)
    currentWeekEntries prevWeekEntries
    (getFrequencyIn30Days_at today data) (getDateKey today)
    (trendOf currentWeekEntries prevWeekEntries
       (avgPositivity currentWeekEntries) (avgPositivity prevWeekEntries))
    (buildHeatmapCells_at today) (getMonthLabels_at today).

(** ** Definitions the properties are stated with *)

(** The Gregorian calendar repeats every 400 years, 146097 days. *)
Definition ERA : Z := 146097.

(** Months counted from year 0: twelve times the year plus the month. *)
Definition monthIndex (day : Z) : Z := 12 * getFullYear day + getMonth day.

(** [P] on the [n] integers from [base] on. *)
Fixpoint allBelow (P : Z -> bool) (base : Z) (n : nat) : bool :=
  match n with
  | O => true
  | S n' => P base && allBelow P (base + 1) n'
  end.

(** Whether the date [c'] is the day after the date [c]: the next day of
    the same month, or the first of the next month or year, which only
    comes after a 28th or later. *)
Definition follows (c c' : Z * Z * Z) : bool :=
  let '(y, m, d) := c in
  let '(y', m', d') := c' in
  ((y' =? y) && (m' =? m) && (d' =? d + 1))
  || ((y' =? y) && (m' =? m + 1) && (d' =? 1) && (28 <=? d))
  || ((y' =? y + 1) && (m' =? 1) && (d' =? 1) && (m =? 12) && (28 <=? d)).

(** What is checked of the date [c] of day [z]: it converts back to [z],
    and month and day of month are in range. *)
Definition day_ok (z : Z) (c : Z * Z * Z) : bool :=
  let '(y, m, d) := c in
  (days_from_civil y m d =? z)
  && (1 <=? m) && (m <=? 12) && (1 <=? d) && (d <=? 31).

Definition calendar_ok (z : Z) : bool :=
  day_ok z (civil_from_days z)
  && follows (civil_from_days z) (civil_from_days (z + 1)).

(** [calendar_ok] on the [n] days from [z] on, each date computed once;
    [c] is the date of [z]. *)
Fixpoint walk (c : Z * Z * Z) (z : Z) (n : nat) : bool :=
  match n with
  | O => true
  | S n' =>
      let c' := civil_from_days (z + 1) in
      day_ok z c && follows c c' && walk c' (z + 1) n'
  end.

(** Two-digit fields: [padStart] yields two characters that read back. *)
Definition pad2_ok (v : Z) : bool :=
  let s := padStart (pretty v) 2 "0" in
  (String.length s =? 2)%nat && bool_decide (Number s = Some v).

(** Whether the key of the day [i] days before [today] is in the history. *)
Definition present (data : MoodData) (today i : Z) : Prop :=
  is_Some (data !! getDateKey (today - i)).

(** The records of the [n] days from [from] days ago backwards, most
    recent first, days without a record left out. *)
Definition windowEntries (data : MoodData) (today from : Z) (n : nat)
    : list MoodEntry :=
  omap (fun k : nat => data !! getDateKey (today - (from + Z.of_nat k))) (seq 0 n).

(** How often a label occurs among some records. *)
Definition occurrences (l : string) (entries : list MoodEntry) : nat :=
  length (List.filter (fun e => bool_decide (label e = l)) entries).

#[global] Instance MoodOption_eq_dec : EqDecision MoodOption.
Proof. solve_decision. Defined.

(** The place of a mood in the catalog. *)
Definition moodIndex (m : MoodOption) : nat :=
  match list_find (fun m' => m' = m) MOODS with
  | Some (i, _) => i
  | None => length MOODS
  end.

(** The order of the frequency list: more occurrences first, and the
    catalog order among equal counts. *)
Definition rankedBefore (a b : FreqEntry) : Prop :=
  (count b < count a)%nat
  \/ (count a = count b /\ (moodIndex (mood a) < moodIndex (mood b))%nat).


(** The catalog score as the specification words it: the score of the
    table, and 5 for every label the table does not list. *)
Definition catalogScore (label : string) : Z :=
  default 5 (POSITIVITY !! label).


(** The sum of the catalog scores of some records, as an integer. *)
Definition scoreSum (entries : list MoodEntry) : Z :=
  foldr (fun e s => catalogScore (label e) + s) 0 entries.


(** The mean score as an exact rational. *)
Definition meanPositivityQ (entries : list MoodEntry) : Q :=
  match entries with
  | [] => 0%Q
  | _ => (inject_Z (scoreSum entries) / inject_Z (Z.of_nat (length entries)))%Q
  end.

(** The trend verdict as the specification words it: read off the exact
    means of the catalog scores. *)
Definition exactTrend (currentWeek prevWeek : list MoodEntry) : Trend :=
  match currentWeek, prevWeek with
  | [], [] => NoData
  | [], _ => NothingThisWeek
  | _, [] => InsufficientHistory
  | _, _ =>
      let c := meanPositivityQ currentWeek in
      let p := meanPositivityQ prevWeek in
      if Qlt_le_dec (p + (1 # 2)) c then Upward
      else if Qlt_le_dec c (p - (1 # 2)) then Downward
      else Steady
  end.




(** A grid of seven rows of twelve cells. *)
Definition grid_shape (grid : Grid) : Prop :=
  length grid = 7%nat /\ forall r, r ∈ grid -> length r = 12%nat.

(** What the cell at row [r] and column [c] holds once the offsets below
    [n] have been handled: the day whose offset [o] has its position
    [todayDow + 77 - o] there, if that offset is one of them. *)
Definition cellAt (today todayDow n r c : Z) : option HeatCell :=
  let o := todayDow + 77 - (7 * c + r) in
  if (0 <=? o) && (o <? n)
  then Some (mkHeatCell (getDateKey (today - o)) c r)
  else None.

(** The day shown in row [row] of column [col] of the heatmap, when it lies
    inside the window of 84 days. *)
Definition cellDay (today col row : Z) : option Z :=
  let daysAgo := getDay today + 77 - (col * 7 + row) in
  if (0 <=? daysAgo) && (daysAgo <? DAYS_IN_HEATMAP)
  then Some (today - daysAgo) else None.

(** The month of the first row of a column whose day lies in the window. *)
Definition columnMonth (today col : Z) : option Z :=
  getMonth <$> head (omap (fun row : nat => cellDay today col (Z.of_nat row)) (seq 0 7)).

(** The placing of labels as the specification words it: over the columns
    from left to right, a column whose month differs from the most recently
    emitted one ([last], none at first) emits a label and becomes the most
    recently emitted. *)
Fixpoint placeLabels (today : Z) (cols : list Z) (last : option Z)
    : list MonthLabel :=
  match cols with
  | [] => []
  | c :: cols' =>
      match columnMonth today c with
      | Some m =>
          if bool_decide (last = Some m) then placeLabels today cols' last
          else mkMonthLabel (shortMonthName m) c :: placeLabels today cols' (Some m)
      | None => placeLabels today cols' last
      end
  end.

Definition monthLabelsSpec (today : Z) : list MonthLabel :=
  placeLabels today ((fun k : nat => Z.of_nat k) <$> seq 0 12) None.

(** The month of the top row of a column, the Sunday of its week. *)
Definition topMonth (today col : Z) : Z :=
  getMonth (today - (getDay today + 77 - 7 * col)).

(** The reading "a label stands at the first column in which its month's
    days begin to appear": no column left of a label shows a day of the
    label's month. *)
Definition firstAppearance (today : Z) : Prop :=
  forall l, l ∈ getMonthLabels_at today ->
  forall c row d, 0 <= c < 12 -> 0 <= row < 7 ->
    cellDay today c row = Some d ->
    shortMonthName (getMonth d) = ml_label l -> ml_col l <= c.

(** One analytic pass of the component from its first render on: the state
    initialisers, then the computed values. *)
Definition App_pass (stored : MoodData) : Clk Analytics :=
  st ← App_mount stored; App_render st.

(** The reading "every computation of a pass is given one instant": what
    the pass shows is what a single day [today] yields. *)
Definition singleInstant (stored : MoodData) (clock : nat -> Date) (k : nat)
    : Prop :=
  exists today, run (App_pass stored) clock k = analytics_at today stored.

(** The analytics [a] shown with a grid and labels computed earlier. *)
Definition withGrid (a : Analytics) (cells : Grid) (labels : list MonthLabel)
    : Analytics :=
  mkAnalytics (currentStreak a) (bestStreak a) (currentWeekEntries a)
    (prevWeekEntries a) (frequency30 a) (todayKey a) (trend a) cells labels.

(** A clock that passes midnight after its third reading: the readings 0,
    1 and 2 fall on [day], the later ones on the day after. *)
Definition midnightClock (day : Z) : nat -> Date :=
  fun k => mkDate (if (k <? 3)%nat then day else day + 1) "".

(** A sample history: Joyful on each of the six days before [today]. *)
Definition sixDays (today : Z) : MoodData :=
  list_to_map
    ((fun i : Z => (getDateKey (today - i),
                    mkMoodEntry "😄" "Joyful" "#FFD700" "2026-10-27T08:32:00.000Z"))
       <$> [1; 2; 3; 4; 5; 6]).

(** What is checked of a bar of count [c] under the scale [m]: its width
    lies between 10 and 100, and is 100 when the count is the scale. *)
Definition bar_ok (c m : Z) : bool :=
  let w := barWidth (Z.to_nat c) (Z.to_nat m) in
  (10 <=? w)%float && (w <=? 100)%float
  && ((negb (c =? m)) || PrimFloat.Leibniz.eqb w 100%float).


(** A sample history with an inherited name: a record labelled
    [constructor] for [today] and Angry seven days before. *)
Definition inheritedHistory (today : Z) : MoodData :=
  list_to_map
    ((fun p : Z * string =>
        (getDateKey (today - p.1), mkMoodEntry "" p.2 "" "2026-11-01T08:32:00.000Z"))
       <$> [ (0, "constructor"); (7, "Angry") ]).


(** A string without the separator of date keys. *)
Fixpoint no_dash (s : string) : bool :=
  match s with
  | EmptyString => true
  | String a s' => negb (Ascii.eqb a "-") && no_dash s'
  end.

(** Two-digit fields hold no separator. *)
Definition pad2_plain (v : Z) : bool := no_dash (padStart (pretty v) 2 "0").

(** The ten digits read back as themselves. *)
Definition digit_ok (d : Z) : bool :=
  bool_decide (digit_of (pretty_N_char (Z.to_N d)) = Some d)
  && negb (Ascii.eqb (pretty_N_char (Z.to_N d)) "-").

(** Years of four digits: [y] and [y + 1] are written with four characters
    and in this order. *)
Definition year_ok (y : Z) : bool :=
  (String.length (pretty y) =? 4)%nat
  && (String.length (pretty (y + 1)%Z) =? 4)%nat
  && bool_decide (String.compare (pretty y) (pretty (y + 1)) = Lt).

(** Two-digit fields are ordered as their numbers. *)
Definition pad2_cmp_ok (a b : Z) : bool :=
  bool_decide (String.compare (padStart (pretty a) 2 "0") (padStart (pretty b) 2 "0")
               = Z.compare a b).

(** The scan of [computeBestStreak] on day numbers in ascending order. *)
Fixpoint runLoop (prev : Z) (rest : list Z) (best current : nat) : nat :=
  match rest with
  | [] => best
  | day :: rest' =>
      if day =? prev + 1 then
        let current := S current in
        let best := if (best <? current)%nat then current else best in
        runLoop day rest' best current
      else runLoop day rest' best 1%nat
  end.

(** A history all of whose keys are date keys of days in the years
    1000..9999. *)
Definition dateKeyed (data : MoodData) : Prop :=
  forall k, k ∈ dom data ->
    exists z, k = getDateKey z /\ 1000 <= getFullYear z <= 9999.

(** The [m] days from day [d] on are all recorded. *)
Definition recordedRun (data : MoodData) (d : Z) (m : nat) : Prop :=
  forall j : nat, (j < m)%nat -> getDateKey (d + Z.of_nat j) ∈ dom data.

(** ** The most frequent label *)

(** A property key that is an array index: the canonical decimal numeral
    of a number below 2^32 - 1. *)
Definition arrayIndex (key : string) : option Z :=
  match digits key 0 with
  | Some n =>
      if bool_decide (pretty n = key) && (n <? 2 ^ 32 - 1) then Some n else None
  | None => None
  end.

(** [counts[l] = (counts[l] || 0) + 1] on the object literal [counts], its
    own properties kept in the order of their creation.  An own count is
    increased.  For a name that is not yet an own property but is inherited
    from [Object.prototype], the read finds the inherited function or
    object, [+ 1] makes a string of it, and the write stores that string as
    an own property, to which later rounds append; only [__proto__] stores
    nothing, since its setter ignores a string. *)
Fixpoint countLabel (l : string) (counts : list (string * Added nat))
    : list (string * Added nat) :=
  match counts with
  | [] =>
      if bool_decide (l = "__proto__") then []
      else if bool_decide (l ∈ Object_prototype) then [(l, Text)]
      else [(l, Num 1%nat)]
  | (k, c) :: rest =>
      if decide (k = l)
      then (k, match c with Num n => Num (S n) | Text => Text end) :: rest
      else (k, c) :: countLabel l rest
  end.

(** [Object.entries(counts)]: the array indices in ascending order, then
    the other keys in the order of their creation. *)
Definition Object_entries {A} (counts : list (string * A)) : list (string * A) :=
  Array_sort (fun a b => default 0 (arrayIndex a.1) - default 0 (arrayIndex b.1))
    (List.filter (fun kc => bool_decide (is_Some (arrayIndex kc.1))) counts)
  ++ List.filter (fun kc => bool_decide (arrayIndex kc.1 = None)) counts.

(** The scan for the best count: [count > bestCount] is false for a count
    that is a string, which compares as NaN. *)
Definition getMostFrequentLabel (entries : list MoodEntry) : option string :=
  match entries with
  | [] => None
  | _ =>
      let counts := foldl (fun counts e => countLabel (label e) counts) [] entries in
      let '(best, _) :=
        foldl (fun '(best, bestCount) '(l, count) =>
                 match count with
                 | Num c => if (bestCount <? c)%nat then (l, c) else (best, bestCount)
                 | Text => (best, bestCount)
                 end)
              (EmptyString, 0%nat) (Object_entries counts) in
      if decide (best = EmptyString) then None else Some best
  end.

(** A record with a given label; the other fields do not matter to the
    label count. *)
Definition entryOf (l : string) : MoodEntry := mkMoodEntry "" l "" "".

(** * Properties *)

Example dateKey_epoch : getDateKey 0 = "1970-01-01".
Proof. reflexivity. Qed.

Example dateKey_sample : getDateKey 20759 = "2026-11-02" /\ getDay 20759 = 1.
Proof. split; reflexivity. Qed.

Example dateKey_leap : getDateKey 19782 = "2024-02-29"
  /\ Date_of_fields 2024 1 29 = 19782 /\ Date_of_fields 2024 0 60 = 19782.
Proof. repeat split; reflexivity. Qed.

(** ** The calendar *)

Lemma allBelow_spec P base n :
  allBelow P base n = true -> forall z, base <= z < base + Z.of_nat n -> P z = true.
Proof.
  revert base. induction n as [|n IH]; intros base H z Hz; [lia|].
  simpl in H. apply andb_prop in H as [H1 H2].
  destruct (decide (z = base)) as [->|Hne]; [done|].
  apply (IH (base + 1)); [done|lia].
Qed.

Lemma civil_shift z :
  civil_from_days (z + ERA) =
  ((civil_from_days z).1.1 + 400, (civil_from_days z).1.2, (civil_from_days z).2).
Proof.
  unfold civil_from_days, ERA.
  replace (z + 146097 + 719468) with (z + 719468 + 1 * 146097) by lia.
  rewrite Z.div_add by lia.
  set (era := (z + 719468) / 146097).
  replace (z + 719468 + 1 * 146097 - (era + 1) * 146097)
    with (z + 719468 - era * 146097) by lia.
  cbn zeta. simpl. f_equal. f_equal. lia.
Qed.

Lemma days_shift y m d :
  days_from_civil (y + 400) m d = days_from_civil y m d + ERA.
Proof.
  unfold days_from_civil, ERA.
  destruct (m <=? 2).
  - replace (y + 400 - 1) with (y - 1 + 1 * 400) by lia.
    rewrite Z.div_add by lia. cbn zeta.
    replace (y - 1 + 1 * 400 - ((y - 1) / 400 + 1) * 400)
      with (y - 1 - (y - 1) / 400 * 400) by lia.
    lia.
  - replace (y + 400) with (y + 1 * 400) by lia.
    rewrite Z.div_add by lia. cbn zeta.
    replace (y + 1 * 400 - (y / 400 + 1) * 400) with (y - y / 400 * 400) by lia.
    lia.
Qed.

Lemma monthIndex_shift z : monthIndex (z + ERA) = monthIndex z + 4800.
Proof.
  unfold monthIndex, getFullYear, getMonth. rewrite civil_shift. simpl. lia.
Qed.

(** A property that survives a shift by one period holds of every day once
    it holds of the days of one period. *)
Lemma periodic_all (P : Z -> bool) :
  (forall z, P (z + ERA) = P z) ->
  (forall z, 0 <= z < ERA -> P z = true) ->
  forall z, P z = true.
Proof.
  intros Hper Hall z.
  assert (Hk : forall k : nat, forall r, P (r + Z.of_nat k * ERA) = P r).
  { induction k as [|k IH]; intros r.
    - f_equal. lia.
    - replace (r + Z.of_nat (S k) * ERA) with (r + Z.of_nat k * ERA + ERA) by lia.
      by rewrite Hper. }
  pose proof (Z.div_mod z ERA ltac:(unfold ERA; lia)) as Hdm.
  pose proof (Z.mod_pos_bound z ERA ltac:(unfold ERA; lia)) as Hb.
  set (q := z / ERA) in *. set (r := z mod ERA) in *.
  assert (Hr : P r = true) by (apply Hall; lia).
  destruct (decide (0 <= q)) as [Hq|Hq].
  - replace z with (r + Z.of_nat (Z.to_nat q) * ERA) by (unfold ERA in *; lia).
    by rewrite Hk.
  - rewrite <- Hr.
    replace r with (z + Z.of_nat (Z.to_nat (- q)) * ERA) by (unfold ERA in *; lia).
    symmetry. apply Hk.
Qed.

Lemma eqb_shift a b c : (a + c =? b + c) = (a =? b).
Proof. destruct (Z.eqb_spec a b), (Z.eqb_spec (a + c) (b + c)); lia. Qed.

Lemma walk_spec n : forall z0,
  walk (civil_from_days z0) z0 n = true ->
  forall z, z0 <= z < z0 + Z.of_nat n -> calendar_ok z = true.
Proof.
  induction n as [|n IH]; intros z0 H z Hz; [lia|].
  cbn [walk] in H. apply andb_prop in H as [H1 H2].
  destruct (decide (z = z0)) as [->|Hne]; [exact H1|].
  apply (IH (z0 + 1)); [done|lia].
Qed.

Lemma calendar_ok_period :
  walk (civil_from_days 0) 0 (Z.to_nat ERA) = true.
Proof. vm_cast_no_check (eq_refl true). Qed.

Lemma calendar_ok_all z : calendar_ok z = true.
Proof.
  revert z. apply periodic_all.
  - intros z. unfold calendar_ok.
    replace (z + ERA + 1) with (z + 1 + ERA) by lia.
    rewrite !civil_shift.
    destruct (civil_from_days z) as [[y m] d].
    destruct (civil_from_days (z + 1)) as [[y' m'] d'].
    unfold day_ok, follows. simpl. rewrite days_shift.
    replace (y + 400 + 1) with (y + 1 + 400) by lia.
    by rewrite !eqb_shift.
  - intros z Hz. apply (walk_spec (Z.to_nat ERA) 0 calendar_ok_period).
    unfold ERA in *. lia.
Qed.

(** From a day to the next the date advances by one day of the month, or
    the month count advances by one and the next month begins, which only
    happens after a 28th or later. *)
Lemma calendar_step z :
  (monthIndex (z + 1) = monthIndex z /\ getDate (z + 1) = getDate z + 1)
  \/ (monthIndex (z + 1) = monthIndex z + 1 /\ getDate (z + 1) = 1
      /\ 28 <= getDate z).
Proof.
  pose proof (calendar_ok_all z) as H. unfold calendar_ok in H.
  apply andb_prop in H as [_ H].
  unfold monthIndex, getFullYear, getMonth, getDate.
  destruct (civil_from_days z) as [[y m] d].
  destruct (civil_from_days (z + 1)) as [[y' m'] d']. simpl in *.
  repeat (apply orb_prop in H as [H|H]);
    repeat (apply andb_prop in H as [H ?]);
    rewrite ?Z.eqb_eq, ?Z.leb_le in *; lia.
Qed.

Lemma calendar_span z (n : nat) :
  28 * monthIndex (z + Z.of_nat n) + Z.min (getDate (z + Z.of_nat n)) 28
  <= 28 * monthIndex z + Z.min (getDate z) 28 + Z.of_nat n.
Proof.
  induction n as [|n IH].
  - replace (z + Z.of_nat 0) with z by lia. lia.
  - replace (z + Z.of_nat (S n)) with (z + Z.of_nat n + 1) by lia.
    pose proof (calendar_step (z + Z.of_nat n)). lia.
Qed.

Lemma calendar_facts z :
  days_from_civil (getFullYear z) (getMonth z + 1) (getDate z) = z
  /\ 0 <= getMonth z <= 11 /\ 1 <= getDate z <= 31
  /\ monthIndex z <= monthIndex (z + 1)
  /\ monthIndex (z + 77) <= monthIndex z + 3.
Proof.
  assert (Hday : forall z', days_from_civil (getFullYear z') (getMonth z' + 1) (getDate z') = z'
    /\ 0 <= getMonth z' <= 11 /\ 1 <= getDate z' <= 31).
  { intros z'. pose proof (calendar_ok_all z') as H. unfold calendar_ok in H.
    apply andb_prop in H as [H _]. unfold day_ok in H.
    unfold getFullYear, getMonth, getDate.
    destruct (civil_from_days z') as [[y m] d]. simpl.
    repeat (apply andb_prop in H as [H ?]).
    rewrite ?Z.eqb_eq, ?Z.leb_le in *.
    replace (m - 1 + 1) with m by lia. lia. }
  destruct (Hday z) as (R & M & D).
  split; [exact R|]. split; [exact M|]. split; [exact D|]. split.
  - pose proof (calendar_step z). lia.
  - pose proof (calendar_span z 77) as Hs.
    change (Z.of_nat 77) with 77 in Hs.
    destruct (Hday (z + 77)) as (_ & _ & D'). lia.
Qed.

Lemma getDay_range z : 0 <= getDay z <= 6.
Proof. unfold getDay. pose proof (Z.mod_pos_bound (z + 4) 7). lia. Qed.

Lemma monthIndex_mono z1 z2 : z1 <= z2 -> monthIndex z1 <= monthIndex z2.
Proof.
  intros H. replace z2 with (z1 + Z.of_nat (Z.to_nat (z2 - z1))) by lia.
  generalize (Z.to_nat (z2 - z1)) as n. induction n as [|n IH]; intros.
  - replace (z1 + Z.of_nat 0) with z1 by lia. lia.
  - replace (z1 + Z.of_nat (S n)) with (z1 + Z.of_nat n + 1) by lia.
    pose proof (calendar_facts (z1 + Z.of_nat n)). lia.
Qed.

(** ** Date keys *)

Lemma string_length_app (s t : string) :
  String.length (s +:+ t) = (String.length s + String.length t)%nat.
Proof. induction s as [|a s IH]; simpl; [done|]. by rewrite IH. Qed.

Lemma string_app_inj_suffix (s1 s2 t1 t2 : string) :
  String.length t1 = String.length t2 ->
  s1 +:+ t1 = s2 +:+ t2 -> s1 = s2 /\ t1 = t2.
Proof.
  revert s2. induction s1 as [|a s1 IH]; intros [|b s2] Hlen Heq; simpl in *.
  - done.
  - apply (f_equal String.length) in Heq.
    rewrite ?string_length_app in Heq. simpl in Heq.
    rewrite ?string_length_app in Heq. lia.
  - apply (f_equal String.length) in Heq.
    rewrite ?string_length_app in Heq. simpl in Heq.
    rewrite ?string_length_app in Heq. lia.
  - injection Heq as -> Heq. destruct (IH s2 Hlen Heq) as [-> ->]. done.
Qed.

Lemma pad2_ok_all v : 0 <= v <= 99 -> pad2_ok v = true.
Proof.
  intros Hv. apply (allBelow_spec pad2_ok 0 100); [|lia].
  vm_compute. reflexivity.
Qed.

Lemma pad2_length v :
  0 <= v <= 99 -> String.length (padStart (pretty v) 2 "0") = 2%nat.
Proof.
  intros Hv. pose proof (pad2_ok_all v Hv) as H. unfold pad2_ok in H.
  apply andb_prop in H as [H _]. by apply Nat.eqb_eq in H.
Qed.

Lemma pad2_inj v w :
  0 <= v <= 99 -> 0 <= w <= 99 ->
  padStart (pretty v) 2 "0" = padStart (pretty w) 2 "0" -> v = w.
Proof.
  intros Hv Hw Heq.
  pose proof (pad2_ok_all v Hv) as H1. pose proof (pad2_ok_all w Hw) as H2.
  unfold pad2_ok in *.
  apply andb_prop in H1 as [_ H1]. apply andb_prop in H2 as [_ H2].
  apply bool_decide_eq_true in H1, H2. rewrite Heq in H1. congruence.
Qed.

(** Distinct days have distinct keys. *)
Lemma getDateKey_inj z1 z2 : getDateKey z1 = getDateKey z2 -> z1 = z2.
Proof.
  intros Heq.
  destruct (calendar_facts z1) as (R1 & M1 & D1 & _).
  destruct (calendar_facts z2) as (R2 & M2 & D2 & _).
  unfold getDateKey in Heq. cbn zeta in Heq.
  pose proof (pad2_length (getMonth z1 + 1) ltac:(lia)) as Lm1.
  pose proof (pad2_length (getMonth z2 + 1) ltac:(lia)) as Lm2.
  pose proof (pad2_length (getDate z1) ltac:(lia)) as Ld1.
  pose proof (pad2_length (getDate z2) ltac:(lia)) as Ld2.
  pose proof (pad2_inj (getMonth z1 + 1) (getMonth z2 + 1) ltac:(lia) ltac:(lia)) as Im.
  pose proof (pad2_inj (getDate z1) (getDate z2) ltac:(lia) ltac:(lia)) as Id.
  revert Heq Lm1 Lm2 Ld1 Ld2 Im Id.
  generalize (padStart (pretty (getMonth z1 + 1)) 2 "0") as mm1.
  generalize (padStart (pretty (getMonth z2 + 1)) 2 "0") as mm2.
  generalize (padStart (pretty (getDate z1)) 2 "0") as dd1.
  generalize (padStart (pretty (getDate z2)) 2 "0") as dd2.
  intros dd2 dd1 mm2 mm1 Heq Lm1 Lm2 Ld1 Ld2 Im Id.
  change ("-" +:+ mm1 +:+ "-" +:+ dd1) with (String "-" (mm1 +:+ String "-" dd1)) in Heq.
  change ("-" +:+ mm2 +:+ "-" +:+ dd2) with (String "-" (mm2 +:+ String "-" dd2)) in Heq.
  apply string_app_inj_suffix in Heq as [Hy Heq].
  2:{ simpl. rewrite !string_length_app. simpl. by rewrite Lm1, Lm2, Ld1, Ld2. }
  apply (inj pretty) in Hy.
  injection Heq as Heq.
  apply string_app_inj_suffix in Heq as [Hm Heq].
  2:{ simpl. by rewrite Ld1, Ld2. }
  injection Heq as Hd.
  apply Im in Hm. apply Id in Hd.
  rewrite <- R1, <- R2. congruence.
Qed.

(** ** Current streak *)

Lemma streakLoop_acc data today i n acc :
  streakLoop data today i n (S acc) = S (streakLoop data today i n acc).
Proof.
  revert i acc. induction n as [|n IH]; intros i acc; simpl; [done|].
  destruct (data !! getDateKey (today - i)); [apply IH|done].
Qed.

Lemma streakLoop_scan data today n : forall i acc,
  exists k : nat,
    streakLoop data today i n acc = (acc + k)%nat /\ (k <= n)%nat
    /\ (forall j : nat, (j < k)%nat -> present data today (i + Z.of_nat j))
    /\ ((k < n)%nat -> ~ present data today (i + Z.of_nat k)).
Proof.
  induction n as [|n IH]; intros i acc; simpl.
  - exists 0%nat. repeat split; [lia|lia|intros; lia|intros; lia].
  - destruct (data !! getDateKey (today - i)) as [e|] eqn:He.
    + destruct (IH (i + 1) (S acc)) as (k & Hk & Hle & Hall & Hstop).
      exists (S k). repeat split; [lia|lia| |].
      * intros [|j] Hj.
        -- unfold present. replace (i + Z.of_nat 0) with i by lia. by rewrite He.
        -- replace (i + Z.of_nat (S j)) with (i + 1 + Z.of_nat j) by lia.
           apply Hall. lia.
      * intros Hlt. replace (i + Z.of_nat (S k)) with (i + 1 + Z.of_nat k) by lia.
        apply Hstop. lia.
    + exists 0%nat. repeat split; [lia|lia|intros; lia|].
      intros _. unfold present. replace (i + Z.of_nat 0) with i by lia.
      rewrite He. by intros [? ?].
Qed.

(** C1. With [start] 0 when today's key is in the history and 1 otherwise,
    the current streak [s] is the number of consecutive keys present from
    offset [start] on, below the cap of 365: the keys at the offsets
    [start .. start + s - 1] are all present, the scan never passes offset
    364, the key at offset [start + s] is missing unless the cap stopped the
    scan, and [s] is the only number with these properties.  It is 0 exactly
    when the key of the starting day is missing. *)
Theorem currentStreak_scan (data : MoodData) (today : Z) :
  let start := if bool_decide (is_Some (data !! getDateKey today)) then 0 else 1 in
  let s := Z.of_nat (computeCurrentStreak_at today data) in
  (forall j, 0 <= j < s -> present data today (start + j))
  /\ start + s <= 365
  /\ (start + s < 365 -> ~ present data today (start + s))
  /\ (s = 0 <-> ~ present data today start)
  /\ (forall s', 0 <= s' -> start + s' <= 365 ->
        (forall j, 0 <= j < s' -> present data today (start + j)) ->
        (start + s' < 365 -> ~ present data today (start + s')) -> s' = s).
Proof.
  intros start s.
  assert (Hstart : 0 <= start <= 1) by (unfold start; case_bool_decide; lia).
  assert (Hs : exists k : nat, s = Z.of_nat k /\ (k <= Z.to_nat (365 - start))%nat
     /\ (forall j : nat, (j < k)%nat -> present data today (start + Z.of_nat j))
     /\ ((k < Z.to_nat (365 - start))%nat -> ~ present data today (start + Z.of_nat k))).
  { unfold s, computeCurrentStreak_at. cbn zeta.
    destruct (streakLoop_scan data today
      (Z.to_nat (365 - start)) start 0%nat) as (k & Hk & Hle & Hall & Hstop).
    exists k. split; [|done].
    f_equal. rewrite <- (Nat.add_0_l k), <- Hk. unfold start.
    case_bool_decide as Hd.
    - destruct Hd as [e ->]. done.
    - destruct (data !! getDateKey today) eqn:E; [|done].
      exfalso. apply Hd. eauto. }
  destruct Hs as (k & -> & Hle & Hall & Hstop).
  assert (P1 : forall j, 0 <= j < Z.of_nat k -> present data today (start + j)).
  { intros j Hj. replace j with (Z.of_nat (Z.to_nat j)) by lia. apply Hall. lia. }
  assert (P3 : start + Z.of_nat k < 365 -> ~ present data today (start + Z.of_nat k)).
  { intros Hlt. apply Hstop. lia. }
  repeat split.
  - exact P1.
  - lia.
  - exact P3.
  - intros Hk0 Hp. assert (k = 0%nat) as -> by lia.
    apply Hstop; [lia|]. by replace (start + Z.of_nat 0) with start by lia.
  - intros Hnp. destruct k as [|k]; [done|]. exfalso. apply Hnp.
    replace start with (start + 0) by lia. apply P1. lia.
  - intros s' Hs0 Hcap Hall' Hstop'.
    destruct (Z.lt_trichotomy s' (Z.of_nat k)) as [Hlt|[Heq|Hgt]]; [|done|].
    + exfalso. apply Hstop'; [lia|]. apply P1. lia.
    + exfalso. apply P3; [lia|]. apply Hall'. lia.
Qed.

Lemma streakLoop_agree (data data' : MoodData) today n : forall i acc,
  (forall j, i <= j < i + Z.of_nat n ->
     is_Some (data' !! getDateKey (today - j)) <-> is_Some (data !! getDateKey (today - j))) ->
  streakLoop data' today i n acc = streakLoop data today i n acc.
Proof.
  induction n as [|n IH]; intros i acc Hagree; simpl; [done|].
  pose proof (Hagree i ltac:(lia)) as Hi.
  destruct (data' !! getDateKey (today - i)) as [e'|],
           (data !! getDateKey (today - i)) as [e|].
  - apply IH. intros j Hj. apply Hagree. lia.
  - exfalso. destruct Hi as [Hi _]. destruct Hi as [? ?]; [eauto|done].
  - exfalso. destruct Hi as [_ Hi]. destruct Hi as [? ?]; [eauto|done].
  - done.
Qed.

(** C2. Logging a mood for today: the records under every other key stay
    as they were and today's key holds the new record; if today had no
    record the current streak grows by exactly one, and if it had one the
    record is replaced and the number of keys does not change. *)
Theorem logging_today (data : MoodData) (today : Z) (stamp : string)
    (mood : MoodOption) :
  let data' := handleMoodSelect_at today stamp mood data in
  let key := getDateKey today in
  (forall k, k <> key -> data' !! k = data !! k)
  /\ data' !! key
     = Some (mkMoodEntry (mo_emoji mood) (mo_label mood) (mo_color mood) stamp)
  /\ (data !! key = None ->
      computeCurrentStreak_at today data'
      = S (computeCurrentStreak_at today data))
  /\ (is_Some (data !! key) -> size data' = size data).
Proof.
  intros data' key. unfold data', handleMoodSelect_at. fold key.
  set (entry := mkMoodEntry _ _ _ _).
  repeat split.
  - intros k Hk. by rewrite lookup_insert_ne.
  - by rewrite lookup_insert_eq.
  - intros Hnone. unfold computeCurrentStreak_at. cbn zeta. fold key.
    rewrite lookup_insert_eq, Hnone.
    change (Z.to_nat (365 - 0)) with (S (Z.to_nat (365 - 1))).
    cbn [streakLoop]. replace (today - 0) with today by lia. fold key.
    rewrite lookup_insert_eq. rewrite streakLoop_acc. f_equal.
    apply streakLoop_agree. intros j Hj.
    rewrite lookup_insert_ne; [done|].
    unfold key. intros Heq. apply getDateKey_inj in Heq. lia.
  - intros [old Hold].
    rewrite <- (insert_delete_id data key old Hold) at 2.
    rewrite <- (insert_delete_eq data key entry).
    rewrite !map_size_insert_None by apply lookup_delete_eq. done.
Qed.

Lemma sort_insert_length {A} (cmp : A -> A -> Z) x l :
  length (sort_insert cmp x l) = S (length l).
Proof.
  induction l as [|y l IH]; simpl; [done|].
  destruct (cmp x y <=? 0); simpl; [done|]. by rewrite IH.
Qed.

Lemma Array_sort_length {A} (cmp : A -> A -> Z) l :
  length (Array_sort cmp l) = length l.
Proof.
  induction l as [|x l IH]; simpl; [done|].
  by rewrite sort_insert_length, IH.
Qed.

Lemma sorted_keys_nil (data : MoodData) :
  Array_sort string_cmp (Object_keys data) = [] <-> data = ∅.
Proof.
  split.
  - intros H. apply (f_equal length) in H.
    rewrite Array_sort_length in H. unfold Object_keys in H.
    rewrite length_fmap in H. simpl in H.
    apply nil_length_inv in H. by apply map_to_list_empty_iff in H.
  - intros ->. unfold Object_keys. by rewrite map_to_list_empty.
Qed.

Lemma currentStreak_empty today : computeCurrentStreak_at today ∅ = 0%nat.
Proof.
  unfold computeCurrentStreak_at. cbn zeta. rewrite lookup_empty.
  change (Z.to_nat (365 - 1)) with (S 363). cbn [streakLoop].
  by rewrite lookup_empty.
Qed.

Lemma bestLoop_ge prevKey rest : forall best current,
  (best <= bestLoop prevKey rest best current)%nat.
Proof.
  revert prevKey. induction rest as [|key rest IH]; intros prevKey best current; simpl; [lia|].
  destruct (diffDays prevKey key) as [[|[| |]|]|]; try apply IH.
  destruct (best <? S current)%nat eqn:E.
  - apply Nat.ltb_lt in E. etransitivity; [|apply IH]. lia.
  - apply IH.
Qed.

(** C3. The best streak is never below the current streak. *)
Theorem bestStreak_ge_currentStreak (data : MoodData) (today : Z) :
  (computeCurrentStreak_at today data <= computeBestStreak_at today data)%nat.
Proof.
  unfold computeBestStreak_at.
  destruct (Array_sort string_cmp (Object_keys data)) as [|key0 rest] eqn:E.
  - apply sorted_keys_nil in E as ->. by rewrite currentStreak_empty.
  - cbn zeta. lia.
Qed.

(** C10. The best streak of a history with at least one key is at least 1,
    whatever its keys are and however far apart; it is 0 exactly for the
    empty history. *)
Theorem bestStreak_zero_iff_empty (data : MoodData) (today : Z) :
  (computeBestStreak_at today data = 0%nat <-> data = ∅)
  /\ (data = ∅ \/ (1 <= computeBestStreak_at today data)%nat).
Proof.
  unfold computeBestStreak_at.
  destruct (Array_sort string_cmp (Object_keys data)) as [|key0 rest] eqn:E.
  - apply sorted_keys_nil in E. split; [done|by left].
  - cbn zeta. pose proof (bestLoop_ge key0 rest 1 1) as Hge.
    assert (Hne : data <> ∅).
    { intros Hd. apply sorted_keys_nil in Hd. congruence. }
    split; [split; [lia|done]|right; lia].
Qed.

(** ** Windows of days *)

Lemma omap_seq_S {A} (g : nat -> option A) n : forall a,
  omap g (seq (S a) n) = omap (fun k => g (S k)) (seq a n).
Proof.
  induction n as [|n IH]; intros a; [done|].
  cbn [seq omap list_omap]. by rewrite IH.
Qed.

Lemma omap_pointwise {A B} (g h : A -> option B) (l : list A) :
  (forall x, g x = h x) -> omap g l = omap h l.
Proof.
  intros E. induction l as [|x l IH]; [done|].
  cbn [omap list_omap]. by rewrite E, IH.
Qed.

Lemma windowEntries_S data today from n :
  windowEntries data today from (S n)
  = match data !! getDateKey (today - from) with
    | Some e => e :: windowEntries data today (from + 1) n
    | None => windowEntries data today (from + 1) n
    end.
Proof.
  unfold windowEntries. rewrite <- cons_seq. cbn [omap list_omap].
  replace (from + Z.of_nat 0) with from by lia.
  rewrite omap_seq_S.
  rewrite (omap_pointwise _
    (fun k : nat => data !! getDateKey (today - (from + 1 + Z.of_nat k)))); [done|].
  intros k. do 3 f_equal. lia.
Qed.

Lemma windowEntries_length data today from n :
  (length (windowEntries data today from n) <= n)%nat.
Proof.
  revert from. induction n as [|n IH]; intros from; [done|].
  rewrite windowEntries_S. specialize (IH (from + 1)).
  destruct (data !! getDateKey (today - from)); simpl; lia.
Qed.

Lemma weekLoop_window data today n : forall i entries,
  weekLoop data today i n entries = entries ++ windowEntries data today i n.
Proof.
  induction n as [|n IH]; intros i entries.
  - simpl. by rewrite app_nil_r.
  - cbn [weekLoop]. rewrite IH, windowEntries_S.
    destruct (data !! getDateKey (today - i)); [|done].
    by rewrite <- app_assoc.
Qed.

Lemma getWeekEntries_window today data startDaysAgo :
  getWeekEntries_at today data startDaysAgo = windowEntries data today startDaysAgo 7.
Proof. unfold getWeekEntries_at. by rewrite weekLoop_window. Qed.

(** ** Frequency *)

Lemma occurrences_cons l e entries :
  occurrences l (e :: entries)
  = ((if bool_decide (label e = l) then 1 else 0) + occurrences l entries)%nat.
Proof. unfold occurrences. simpl. by destruct (bool_decide (label e = l)). Qed.

Lemma freqLoop_counts data today n : forall i counts l,
  default 0%nat (freqLoop data today i n counts !! l)
  = (default 0%nat (counts !! l) + occurrences l (windowEntries data today i n))%nat.
Proof.
  induction n as [|n IH]; intros i counts l.
  - simpl. unfold occurrences. simpl. lia.
  - cbn [freqLoop]. rewrite IH, windowEntries_S.
    destruct (data !! getDateKey (today - i)) as [e|]; [|done].
    rewrite occurrences_cons. case_bool_decide as Hl.
    + subst l. rewrite lookup_insert_eq. simpl. lia.
    + rewrite lookup_insert_ne by done. lia.
Qed.

Lemma sort_insert_perm {A} (cmp : A -> A -> Z) x l :
  sort_insert cmp x l ≡ₚ x :: l.
Proof.
  induction l as [|y l IH]; simpl; [done|].
  destruct (cmp x y <=? 0); [done|].
  rewrite IH. apply Permutation_swap.
Qed.

Lemma Array_sort_perm {A} (cmp : A -> A -> Z) l : Array_sort cmp l ≡ₚ l.
Proof.
  induction l as [|x l IH]; simpl; [done|].
  by rewrite sort_insert_perm, IH.
Qed.

(** The sort by descending count is stable: entries already in catalog
    order come out ranked. *)
Lemma sort_insert_ranked x l :
  StronglySorted rankedBefore l ->
  Forall (fun y => (moodIndex (mood x) < moodIndex (mood y))%nat) l ->
  StronglySorted rankedBefore
    (sort_insert (fun a b => Z.of_nat (count b) - Z.of_nat (count a)) x l).
Proof.
  induction l as [|y l IH]; intros Hs Hx; simpl.
  - repeat constructor.
  - apply StronglySorted_inv in Hs as [Hs Hy].
    apply Forall_cons in Hx as [Hxy Hx].
    destruct (Z.leb_spec (Z.of_nat (count y) - Z.of_nat (count x)) 0) as [Hle|Hgt].
    + constructor; [by constructor|].
      constructor.
      * unfold rankedBefore. destruct (decide (count y = count x)); [right|left]; lia.
      * rewrite Forall_forall in Hy, Hx |- *. intros z Hz.
        specialize (Hy z Hz). specialize (Hx z Hz).
        unfold rankedBefore in *.
        destruct (decide (count z = count x)); [right|left]; lia.
    + constructor; [by apply IH|].
      rewrite sort_insert_perm. constructor; [|done].
      unfold rankedBefore. left. lia.
Qed.

Lemma Array_sort_ranked l :
  StronglySorted (fun a b => (moodIndex (mood a) < moodIndex (mood b))%nat) l ->
  StronglySorted rankedBefore
    (Array_sort (fun a b => Z.of_nat (count b) - Z.of_nat (count a)) l).
Proof.
  induction l as [|x l IH]; intros Hs; simpl; [constructor|].
  apply StronglySorted_inv in Hs as [Hs Hx].
  apply sort_insert_ranked; [by apply IH|].
  by rewrite Array_sort_perm.
Qed.

Lemma StronglySorted_filter_keep {A} (R : A -> A -> Prop) (f : A -> bool) l :
  StronglySorted R l -> StronglySorted R (List.filter f l).
Proof.
  induction 1 as [|x l Hs IH Hx]; simpl; [constructor|].
  destruct (f x); [|done]. constructor; [done|].
  rewrite Forall_forall in Hx |- *. intros y Hy.
  apply list_elem_of_In, filter_In in Hy as [Hy _]. apply Hx. by apply list_elem_of_In.
Qed.

Lemma StronglySorted_lookup_lt {A} (R : A -> A -> Prop) l (i j : nat) a b :
  StronglySorted R l -> l !! i = Some a -> l !! j = Some b -> (i < j)%nat -> R a b.
Proof.
  intros Hs. revert i j. induction Hs as [|x l Hs IH Hx]; intros i j Hi Hj Hlt; [done|].
  destruct i as [|i], j as [|j]; try lia; simpl in *.
  - injection Hi as ->. rewrite Forall_forall in Hx. apply Hx.
    by apply list_elem_of_lookup_2 in Hj.
  - apply (IH i j); [done|done|lia].
Qed.

Lemma catalog_sorted (counts : gmap string nat) :
  StronglySorted (fun a b => (moodIndex (mood a) < moodIndex (mood b))%nat)
    (List.map (fun mood => mkFreqEntry mood (default 0%nat (counts !! mo_label mood))) MOODS).
Proof.
  unfold MOODS. cbn [List.map].
  repeat (constructor; [|repeat (constructor; [vm_compute; lia|]); constructor]).
  constructor.
Qed.

Lemma catalog_NoDup : NoDup MOODS.
Proof. apply (bool_decide_unpack (NoDup MOODS)). vm_compute. exact I. Qed.

Lemma freq_entries_elem (counts : gmap string nat) m c :
  mkFreqEntry m c ∈
    List.filter (fun e => (0 <? count e)%nat)
      (List.map (fun mood => mkFreqEntry mood (default 0%nat (counts !! mo_label mood)))
         MOODS)
  <-> m ∈ MOODS /\ c = default 0%nat (counts !! mo_label m) /\ (0 < c)%nat.
Proof.
  rewrite list_elem_of_In, filter_In, in_map_iff. cbn [count]. rewrite Nat.ltb_lt.
  split.
  - intros [(m' & Hm' & Hin) Hpos]. injection Hm' as -> <-.
    by apply list_elem_of_In in Hin.
  - intros (Hm & -> & Hpos). split; [|done].
    exists m. split; [done|]. by apply list_elem_of_In.
Qed.

(** C6. The frequency list of a history on a day holds exactly the catalog
    moods whose label occurs among the records of the 30 days ending that
    day, each once and with its number of occurrences (none with 0), ordered
    by descending count and, among equal counts, in catalog order. *)
Theorem frequency30_ranked (data : MoodData) (today : Z) :
  let result := getFrequencyIn30Days_at today data in
  let window := windowEntries data today 0 30 in
  (forall m c, mkFreqEntry m c ∈ result <->
     m ∈ MOODS /\ c = occurrences (mo_label m) window /\ (0 < c)%nat)
  /\ NoDup result
  /\ (forall (i j : nat) a b, result !! i = Some a -> result !! j = Some b ->
        (i < j)%nat -> rankedBefore a b).
Proof.
  intros result window. unfold result, getFrequencyIn30Days_at. cbn zeta.
  assert (Hc : forall l, default 0%nat (freqLoop data today 0 30 ∅ !! l)
                         = occurrences l window).
  { intros l. rewrite freqLoop_counts, lookup_empty. done. }
  revert Hc. generalize (freqLoop data today 0 30 ∅) as counts.
  generalize window as w. clear result window. intros w counts Hc.
  split; [|split].
  - intros m c. rewrite Array_sort_perm, freq_entries_elem, Hc. done.
  - rewrite Array_sort_perm. apply NoDup_ListNoDup, List.NoDup_filter.
    apply Finite.Injective_map_NoDup; [|apply NoDup_ListNoDup, catalog_NoDup].
    intros m1 m2 Heq. by injection Heq.
  - intros i j a b Hi Hj Hlt.
    eapply StronglySorted_lookup_lt; [|exact Hi|exact Hj|exact Hlt].
    apply Array_sort_ranked, StronglySorted_filter_keep, catalog_sorted.
Qed.

(** ** Bar widths *)

Lemma maxFreq_fold (l : list FreqEntry) : forall acc,
  fold_left (fun max m => Nat.max max (count m)) l acc
  = Nat.max acc (list_max (count <$> l)).
Proof.
  induction l as [|e l IH]; intros acc.
  - cbn. lia.
  - cbn [fold_left]. rewrite IH. rewrite fmap_cons.
    change (list_max (count e :: (count <$> l)))
      with (Nat.max (count e) (list_max (count <$> l))).
    lia.
Qed.


(** ** The weekly trend *)




Lemma positivityOf_inherited l :
  l ∈ Object_prototype -> positivityOf l = None.
Proof.
  intros Hl. unfold Object_prototype in Hl.
  repeat (apply elem_of_cons in Hl as [->|Hl]; [reflexivity|]).
  by apply elem_of_nil in Hl.
Qed.




(** A sum that has become a string stays one, and it becomes one at the
    first inherited name. *)
Lemma fold_sum_text entries :
  fold_left (fun sum e =>
               match sum, positivityOf (label e) with
               | Num x, Some score => Num (x + Z2float score)%float
               | _, _ => Text
               end) entries Text
  = Text.
Proof. induction entries as [|e entries IH]; [done|]. cbn [fold_left]. apply IH. Qed.

Lemma fold_sum_inherited entries : forall acc,
  (exists e, e ∈ entries /\ label e ∈ Object_prototype) ->
  fold_left (fun sum e =>
               match sum, positivityOf (label e) with
               | Num x, Some score => Num (x + Z2float score)%float
               | _, _ => Text
               end) entries acc
  = Text.
Proof.
  induction entries as [|e entries IH]; intros acc (e' & He' & Hl).
  - by apply elem_of_nil in He'.
  - cbn [fold_left]. apply elem_of_cons in He' as [->|He'].
    + rewrite (positivityOf_inherited _ Hl).
      destruct acc; apply fold_sum_text.
    + apply IH. eauto.
Qed.



(** With an inherited name among the records the average is NaN. *)
Lemma avgPositivity_nan entries :
  (exists e, e ∈ entries /\ label e ∈ Object_prototype) ->
  avgPositivity entries = PrimFloat.nan.
Proof.
  intros H. unfold avgPositivity.
  destruct entries as [|e entries].
  { destruct H as (e & He & _). by apply elem_of_nil in He. }
  change (length (e :: entries) =? 0)%nat with false. cbv iota.
  by rewrite fold_sum_inherited.
Qed.












(** ** The heatmap grid *)

Lemma cellAt_unfold today todayDow n r c :
  cellAt today todayDow n r c
  = if (0 <=? todayDow + 77 - (7 * c + r)) && (todayDow + 77 - (7 * c + r) <? n)
    then Some (mkHeatCell (getDateKey (today - (todayDow + 77 - (7 * c + r)))) c r)
    else None.
Proof. reflexivity. Qed.

Lemma grid_shape_empty : grid_shape emptyGrid.
Proof.
  split; [done|]. unfold emptyGrid. intros r Hr.
  apply elem_of_replicate in Hr as [-> _]. done.
Qed.

Lemma grid_get_empty r c : grid_get emptyGrid r c = None.
Proof.
  unfold grid_get, emptyGrid.
  destruct (replicate 7 (replicate 12 None) !! Z.to_nat r) as [rw|] eqn:E; [|done].
  apply lookup_replicate in E as [-> _].
  destruct (replicate 12 None !! Z.to_nat c) as [x|] eqn:E'; [|done].
  by apply lookup_replicate in E' as [-> _].
Qed.

Lemma grid_set_shape grid r c cell :
  grid_shape grid -> grid_shape (grid_set grid r c cell).
Proof.
  intros [Hlen Hrows]. unfold grid_set. split.
  - by rewrite length_alter.
  - intros rw Hrw. apply list_elem_of_lookup in Hrw as [k Hk].
    destruct (decide (k = Z.to_nat r)) as [->|Hne].
    + rewrite list_lookup_alter_eq in Hk.
      destruct (grid !! Z.to_nat r) as [rw0|] eqn:E; [|done].
      simpl in Hk. injection Hk as <-. rewrite length_insert.
      apply Hrows. by eapply list_elem_of_lookup_2.
    + rewrite list_lookup_alter_ne in Hk by done.
      apply Hrows. by eapply list_elem_of_lookup_2.
Qed.

Lemma grid_get_set grid r c cell r' c' :
  grid_shape grid -> 0 <= r < 7 -> 0 <= c < 12 -> 0 <= r' -> 0 <= c' ->
  grid_get (grid_set grid r c cell) r' c'
  = if bool_decide (r' = r /\ c' = c) then Some cell else grid_get grid r' c'.
Proof.
  intros [Hlen Hrows] Hr Hc Hr' Hc'. unfold grid_get, grid_set.
  destruct (decide (Z.to_nat r' = Z.to_nat r)) as [Er|Er].
  - rewrite Er, list_lookup_alter_eq.
    destruct (lookup_lt_is_Some_2 grid (Z.to_nat r) ltac:(lia)) as [rw Hrw].
    rewrite Hrw. simpl.
    assert (Hl : length rw = 12%nat) by (apply Hrows; by eapply list_elem_of_lookup_2).
    destruct (decide (Z.to_nat c' = Z.to_nat c)) as [Ec|Ec].
    + rewrite Ec, list_lookup_insert_eq by lia.
      rewrite bool_decide_eq_true_2; [done|lia].
    + rewrite list_lookup_insert_ne by done.
      rewrite bool_decide_eq_false_2; [done|lia].
  - rewrite list_lookup_alter_ne by done.
    rewrite bool_decide_eq_false_2; [done|lia].
Qed.

Lemma heatLoop_cells today todayDow n : forall i grid,
  0 <= todayDow <= 6 -> 0 <= i -> i + Z.of_nat n <= 84 ->
  grid_shape grid ->
  (forall r c, 0 <= r < 7 -> 0 <= c < 12 ->
     grid_get grid r c = cellAt today todayDow i r c) ->
  grid_shape (heatLoop today todayDow i n grid)
  /\ (forall r c, 0 <= r < 7 -> 0 <= c < 12 ->
        grid_get (heatLoop today todayDow i n grid) r c
        = cellAt today todayDow (i + Z.of_nat n) r c).
Proof.
  induction n as [|n IH]; intros i grid Hdow Hi Hn Hshape Hcells.
  - simpl. split; [done|]. intros r c Hr Hc.
    replace (i + Z.of_nat 0) with i by lia. by apply Hcells.
  - cbn [heatLoop].
    replace (i + Z.of_nat (S n)) with (i + 1 + Z.of_nat n) by lia.
    set (pos := todayDow + 77 - i).
    destruct (Z.ltb_spec pos 0) as [Hneg|Hpos].
    + apply IH; [done|lia|lia|done|].
      intros r c Hr Hc. rewrite Hcells by done. rewrite !cellAt_unfold.
      destruct (Z.leb_spec 0 (todayDow + 77 - (7 * c + r))); simpl; [|done].
      destruct (Z.ltb_spec (todayDow + 77 - (7 * c + r)) i),
               (Z.ltb_spec (todayDow + 77 - (7 * c + r)) (i + 1)); try done; lia.
    + pose proof (Z.div_mod pos 7 ltac:(lia)) as Hdm.
      pose proof (Z.mod_pos_bound pos 7 ltac:(lia)) as Hmod.
      rewrite Z.rem_mod_nonneg by lia.
      set (cl := pos / 7) in *. set (rw := pos mod 7) in *.
      assert (Hcl : 0 <= cl < 12) by (unfold pos in *; lia).
      replace ((0 <=? cl) && (cl <? 12) && (0 <=? rw) && (rw <? 7)) with true.
      2:{ symmetry. rewrite !andb_true_iff, !Z.leb_le, !Z.ltb_lt. lia. }
      apply IH; [done|lia|lia|by apply grid_set_shape|].
      intros r c Hr Hc. rewrite grid_get_set by (done || lia).
      rewrite Hcells by done. rewrite !cellAt_unfold.
      case_bool_decide as Heq.
      * destruct Heq as [-> ->].
        replace (todayDow + 77 - (7 * cl + rw)) with i by (unfold pos in *; lia).
        replace ((0 <=? i) && (i <? i + 1)) with true; [done|].
        symmetry. rewrite andb_true_iff, Z.leb_le, Z.ltb_lt. lia.
      * destruct (Z.leb_spec 0 (todayDow + 77 - (7 * c + r))); simpl; [|done].
        destruct (Z.ltb_spec (todayDow + 77 - (7 * c + r)) i),
                 (Z.ltb_spec (todayDow + 77 - (7 * c + r)) (i + 1)); try done; lia.
Qed.

Lemma heatmap_cells today r c :
  0 <= r < 7 -> 0 <= c < 12 ->
  grid_get (buildHeatmapCells_at today) r c = cellAt today (getDay today) 84 r c.
Proof.
  intros Hr Hc. unfold buildHeatmapCells_at. cbv zeta.
  pose proof (getDay_range today) as Hdow.
  destruct (heatLoop_cells today (getDay today) (Z.to_nat DAYS_IN_HEATMAP) 0 emptyGrid)
    as [_ H]; [done|lia|unfold DAYS_IN_HEATMAP; lia|apply grid_shape_empty| |].
  - intros r' c' _ _. rewrite grid_get_empty, cellAt_unfold.
    destruct (Z.leb_spec 0 (getDay today + 77 - (7 * c' + r'))); simpl; [|done].
    destruct (Z.ltb_spec (getDay today + 77 - (7 * c' + r')) 0); [lia|done].
  - by rewrite H.
Qed.

(** C7. Every offset [i] in [0, 84) whose position
    [pos = todayDow + 77 - i] is not negative is placed at row [pos mod 7]
    and column [pos / 7] with the key of the day [i] days ago; the row lies
    in [0, 7) and the column in [0, 12); the finished grid still holds that
    cell there, distinct offsets have distinct places, and today (offset 0)
    is in column 11 at row [todayDow]. *)
Theorem heatmap_places (today : Z) :
  let todayDow := getDay today in
  let grid := buildHeatmapCells_at today in
  (forall i, 0 <= i < 84 -> 0 <= todayDow + 77 - i ->
     0 <= (todayDow + 77 - i) mod 7 < 7
     /\ 0 <= (todayDow + 77 - i) / 7 < 12
     /\ grid_get grid ((todayDow + 77 - i) mod 7) ((todayDow + 77 - i) / 7)
        = Some (mkHeatCell (getDateKey (today - i))
                  ((todayDow + 77 - i) / 7) ((todayDow + 77 - i) mod 7)))
  /\ (forall i j, 0 <= i < 84 -> 0 <= j < 84 ->
        0 <= todayDow + 77 - i -> 0 <= todayDow + 77 - j -> i <> j ->
        ((todayDow + 77 - i) mod 7, (todayDow + 77 - i) / 7)
        <> ((todayDow + 77 - j) mod 7, (todayDow + 77 - j) / 7))
  /\ (todayDow + 77 - 0) mod 7 = todayDow
  /\ (todayDow + 77 - 0) / 7 = 11
  /\ grid_get grid todayDow 11 = Some (mkHeatCell (getDateKey today) 11 todayDow).
Proof.
  intros todayDow grid. pose proof (getDay_range today) as Hdow. fold todayDow in Hdow.
  assert (Hplace : forall i, 0 <= i < 84 -> 0 <= todayDow + 77 - i ->
     0 <= (todayDow + 77 - i) mod 7 < 7
     /\ 0 <= (todayDow + 77 - i) / 7 < 12
     /\ grid_get grid ((todayDow + 77 - i) mod 7) ((todayDow + 77 - i) / 7)
        = Some (mkHeatCell (getDateKey (today - i))
                  ((todayDow + 77 - i) / 7) ((todayDow + 77 - i) mod 7))).
  { intros i Hi Hpos.
    pose proof (Z.div_mod (todayDow + 77 - i) 7 ltac:(lia)) as Hdm.
    pose proof (Z.mod_pos_bound (todayDow + 77 - i) 7 ltac:(lia)) as Hmod.
    set (cl := (todayDow + 77 - i) / 7) in *.
    set (rw := (todayDow + 77 - i) mod 7) in *.
    assert (Hcl : 0 <= cl < 12) by lia.
    split; [done|]. split; [done|].
    unfold grid. rewrite heatmap_cells by done. fold todayDow.
    rewrite cellAt_unfold.
    replace (todayDow + 77 - (7 * cl + rw)) with i by lia.
    replace ((0 <=? i) && (i <? 84)) with true; [done|].
    symmetry. rewrite andb_true_iff, Z.leb_le, Z.ltb_lt. lia. }
  split; [exact Hplace|]. split.
  - intros i j Hi Hj Hpi Hpj Hne Heq. injection Heq as Hr Hc.
    pose proof (Z.div_mod (todayDow + 77 - i) 7 ltac:(lia)).
    pose proof (Z.div_mod (todayDow + 77 - j) 7 ltac:(lia)). lia.
  - assert (E7 : (todayDow + 77 - 0) / 7 = 11).
    { replace (todayDow + 77 - 0) with (todayDow + 11 * 7) by lia.
      rewrite Z.div_add by lia. rewrite Z.div_small by lia. lia. }
    assert (Em : (todayDow + 77 - 0) mod 7 = todayDow).
    { replace (todayDow + 77 - 0) with (todayDow + 11 * 7) by lia.
      rewrite Z.mod_add by lia. apply Z.mod_small. lia. }
    split; [exact Em|]. split; [exact E7|].
    destruct (Hplace 0 ltac:(lia) ltac:(lia)) as (_ & _ & H).
    rewrite Em, E7 in H. by replace (today - 0) with today in H by lia.
Qed.

(** ** Month labels *)

Lemma getMonth_range z : 0 <= getMonth z <= 11.
Proof. by destruct (calendar_facts z) as (_ & H & _). Qed.

Lemma topMonth_range today c : 0 <= topMonth today c <= 11.
Proof. apply getMonth_range. Qed.

(** The top row of each of the twelve columns lies in the window, so the
    scan of a column ends at its first row. *)
Lemma rowLoop_top today c st :
  0 <= c < 12 ->
  rowLoop today (getDay today) c 0 7 st
  = if bool_decide (topMonth today c <> st.2)
    then (st.1 ++ [mkMonthLabel (shortMonthName (topMonth today c)) c],
          topMonth today c)
    else st.
Proof.
  intros Hc. pose proof (getDay_range today) as Hd.
  cbn [rowLoop]. unfold DAYS_IN_HEATMAP.
  replace (getDay today + 77 - (c * 7 + 0)) with (getDay today + 77 - 7 * c) by lia.
  destruct (Z.ltb_spec (getDay today + 77 - 7 * c) 0); [lia|].
  destruct (Z.leb_spec 84 (getDay today + 77 - 7 * c)); [lia|].
  done.
Qed.

Lemma columnMonth_top today c :
  0 <= c < 12 -> columnMonth today c = Some (topMonth today c).
Proof.
  intros Hc. pose proof (getDay_range today) as Hd.
  unfold columnMonth. cbn [seq omap list_omap].
  unfold cellDay at 1. unfold DAYS_IN_HEATMAP. cbv zeta.
  replace (getDay today + 77 - (c * 7 + Z.of_nat 0)) with (getDay today + 77 - 7 * c) by lia.
  destruct (Z.leb_spec 0 (getDay today + 77 - 7 * c)); [|lia].
  destruct (Z.ltb_spec (getDay today + 77 - 7 * c) 84); [|lia].
  done.
Qed.

Lemma colLoop_placeLabels today n : forall (c : nat) st last,
  (c + n <= 12)%nat ->
  (last = None /\ st.2 = -1) \/ last = Some st.2 ->
  (colLoop today (getDay today) (Z.of_nat c) n st).1
  = st.1 ++ placeLabels today ((fun k : nat => Z.of_nat k) <$> seq c n) last.
Proof.
  induction n as [|n IH]; intros c st last Hn Hlast.
  - simpl. by rewrite app_nil_r.
  - cbn [colLoop seq fmap list_fmap placeLabels].
    rewrite rowLoop_top, columnMonth_top by lia.
    pose proof (topMonth_range today (Z.of_nat c)) as Hm.
    replace (Z.of_nat c + 1) with (Z.of_nat (S c)) by lia.
    case_bool_decide as Hne; case_bool_decide as Hl.
    + exfalso. destruct Hlast as [[-> _]| ->]; [done|]. congruence.
    + rewrite (IH (S c) _ (Some (topMonth today (Z.of_nat c)))); [|lia|by right].
      cbn [fst]. by rewrite <- app_assoc.
    + apply IH; [lia|done].
    + exfalso. destruct Hlast as [[_ E]| ->]; [lia|]. congruence.
Qed.

Lemma monthLabels_spec today : getMonthLabels_at today = monthLabelsSpec today.
Proof.
  unfold getMonthLabels_at, monthLabelsSpec. cbv zeta.
  apply (colLoop_placeLabels today 12 0 ([], -1) None); [lia|by left].
Qed.

Lemma placeLabels_elem today n l : forall (c : nat) last,
  (c + n <= 12)%nat ->
  (last = None /\ c = 0%nat)
  \/ (last = Some (topMonth today (Z.of_nat c - 1)) /\ (0 < c)%nat) ->
  l ∈ placeLabels today ((fun k : nat => Z.of_nat k) <$> seq c n) last
  <-> exists k, Z.of_nat c <= k < Z.of_nat c + Z.of_nat n
        /\ l = mkMonthLabel (shortMonthName (topMonth today k)) k
        /\ (k = 0 \/ topMonth today (k - 1) <> topMonth today k).
Proof.
  induction n as [|n IH]; intros c last Hn Hlast.
  - simpl. split; [by intros ?%elem_of_nil|]. intros (k & Hk & _). lia.
  - cbn [seq fmap list_fmap placeLabels]. rewrite columnMonth_top by lia.
    assert (Hnext : (Some (topMonth today (Z.of_nat c)) = None /\ S c = 0%nat)
       \/ (Some (topMonth today (Z.of_nat c))
           = Some (topMonth today (Z.of_nat (S c) - 1)) /\ (0 < S c)%nat)).
    { right. split; [|lia]. do 2 f_equal. lia. }
    case_bool_decide as Hl.
    + assert (Hc0 : (0 < c)%nat /\ topMonth today (Z.of_nat c - 1) = topMonth today (Z.of_nat c)).
      { destruct Hlast as [[-> _]|[-> ?]]; [done|]. split; [done|congruence]. }
      rewrite Hl. rewrite (IH (S c) _ ltac:(lia) Hnext).
      split; intros (k & Hk & Hrest).
      * exists k. split; [lia|done].
      * exists k. split; [|done].
        destruct (decide (k = Z.of_nat c)) as [-> |]; [|lia].
        destruct Hrest as [_ [?|Hne]]; [lia|]. destruct Hc0 as [_ E]. by rewrite E in Hne.
    + rewrite elem_of_cons. rewrite (IH (S c) _ ltac:(lia) Hnext).
      split.
      * intros [-> |(k & Hk & Hrest)].
        -- exists (Z.of_nat c). split; [lia|]. split; [done|].
           destruct Hlast as [[_ ->]|[-> ?]]; [by left|].
           right. intros E. apply Hl. by rewrite E.
        -- exists k. split; [lia|done].
      * intros (k & Hk & Hrest).
        destruct (decide (k = Z.of_nat c)) as [-> |].
        -- left. by destruct Hrest as [-> _].
        -- right. exists k. split; [lia|done].
Qed.

Lemma monthLabels_elem today l :
  l ∈ getMonthLabels_at today
  <-> exists k, 0 <= k < 12
        /\ l = mkMonthLabel (shortMonthName (topMonth today k)) k
        /\ (k = 0 \/ topMonth today (k - 1) <> topMonth today k).
Proof.
  rewrite monthLabels_spec. unfold monthLabelsSpec.
  rewrite (placeLabels_elem today 12 l 0 None); [|lia|by left].
  split; intros (k & Hk & Hrest); exists k; (split; [lia|done]).
Qed.

(** Within the twelve columns a month does not come back once it is over:
    two columns with the same top month have it in every column between. *)
Lemma topMonth_between today c1 c2 c :
  0 <= c1 -> c1 <= c <= c2 -> c2 < 12 ->
  topMonth today c1 = topMonth today c2 -> topMonth today c = topMonth today c2.
Proof.
  intros H1 Hc H2. unfold topMonth.
  set (d := fun k => today - (getDay today + 77 - 7 * k)).
  change (getMonth (d c1) = getMonth (d c2) -> getMonth (d c) = getMonth (d c2)).
  pose proof (monthIndex_mono (d c1) (d c) ltac:(unfold d; lia)) as M1.
  pose proof (monthIndex_mono (d c) (d c2) ltac:(unfold d; lia)) as M2.
  pose proof (monthIndex_mono (d c2) (d c1 + 77) ltac:(unfold d; lia)) as M3.
  destruct (calendar_facts (d c1)) as (_ & R1 & _ & _ & S1).
  pose proof (getMonth_range (d c)) as R. pose proof (getMonth_range (d c2)) as R2.
  unfold monthIndex in *. lia.
Qed.

Lemma shortMonthName_inj m1 m2 :
  0 <= m1 <= 11 -> 0 <= m2 <= 11 ->
  shortMonthName m1 = shortMonthName m2 -> m1 = m2.
Proof.
  intros H1 H2.
  assert (E1 : m1 = 0 \/ m1 = 1 \/ m1 = 2 \/ m1 = 3 \/ m1 = 4 \/ m1 = 5 \/ m1 = 6
          \/ m1 = 7 \/ m1 = 8 \/ m1 = 9 \/ m1 = 10 \/ m1 = 11) by lia.
  assert (E2 : m2 = 0 \/ m2 = 1 \/ m2 = 2 \/ m2 = 3 \/ m2 = 4 \/ m2 = 5 \/ m2 = 6
          \/ m2 = 7 \/ m2 = 8 \/ m2 = 9 \/ m2 = 10 \/ m2 = 11) by lia.
  repeat destruct E1 as [-> |E1]; try subst m1;
    repeat destruct E2 as [-> |E2]; try subst m2; simpl; congruence.
Qed.

(** C9 (as the code has it). The labels are those the column scan of the
    specification yields: each column 0..11 from left to right, the month
    of its first row inside the 84-day window, a label with the short month
    name emitted exactly when that month differs from the most recently
    emitted one.  That first row is the top row of the column, so a label
    stands at column [k] exactly when [k] is 0 or the top month of column
    [k] differs from that of column [k - 1]; it stands at the first column
    whose top row falls in its month, and no month gets two labels. *)
Theorem monthLabels_placed (today : Z) :
  let labels := getMonthLabels_at today in
  labels = monthLabelsSpec today
  /\ (forall k, 0 <= k < 12 -> columnMonth today k = Some (topMonth today k))
  /\ (forall l, l ∈ labels <->
        exists k, 0 <= k < 12
          /\ l = mkMonthLabel (shortMonthName (topMonth today k)) k
          /\ (k = 0 \/ topMonth today (k - 1) <> topMonth today k))
  /\ (forall l, l ∈ labels ->
        ml_label l = shortMonthName (topMonth today (ml_col l))
        /\ forall c, 0 <= c < ml_col l -> topMonth today c <> topMonth today (ml_col l))
  /\ (forall l1 l2, l1 ∈ labels -> l2 ∈ labels -> ml_label l1 = ml_label l2 -> l1 = l2).
Proof.
  intros labels.
  assert (Hfirst : forall l, l ∈ labels ->
        ml_label l = shortMonthName (topMonth today (ml_col l))
        /\ 0 <= ml_col l < 12
        /\ forall c, 0 <= c < ml_col l -> topMonth today c <> topMonth today (ml_col l)).
  { intros l Hl. apply monthLabels_elem in Hl as (k & Hk & -> & Hdiff). simpl.
    split; [done|]. split; [done|]. intros c Hc E.
    destruct Hdiff as [-> |Hdiff]; [lia|]. apply Hdiff.
    apply (topMonth_between today c k (k - 1)); [lia|lia|lia|done]. }
  split; [apply monthLabels_spec|]. split; [apply columnMonth_top|].
  split; [apply monthLabels_elem|]. split.
  - intros l Hl. destruct (Hfirst l Hl) as (? & _ & ?). done.
  - intros l1 l2 H1 H2 E.
    destruct (Hfirst l1 H1) as (N1 & C1 & F1). destruct (Hfirst l2 H2) as (N2 & C2 & F2).
    rewrite N1, N2 in E. apply shortMonthName_inj in E; [|apply topMonth_range..].
    assert (ml_col l1 = ml_col l2) as Ec.
    { destruct (Z.lt_trichotomy (ml_col l1) (ml_col l2)) as [Hlt|[?|Hgt]]; [|done|].
      - exfalso. by apply (F2 (ml_col l1)); [lia|].
      - exfalso. by apply (F1 (ml_col l2)); [lia|]. }
    destruct l1 as [n1 c1], l2 as [n2 c2]. simpl in *. congruence.
Qed.

(** C9 (as the claim words it) fails on 2 November 2026: the label Oct
    stands at column 7, yet 1 October is in column 6, at row 4. *)
Lemma monthLabel_after_first_day :
  ~ firstAppearance 20759
  /\ mkMonthLabel "Oct" 7 ∈ getMonthLabels_at 20759
  /\ cellDay 20759 6 4 = Some 20727
  /\ getDateKey 20727 = "2026-10-01"
  /\ shortMonthName (getMonth 20727) = "Oct".
Proof.
  assert (Hin : mkMonthLabel "Oct" 7 ∈ getMonthLabels_at 20759).
  { vm_compute. apply list_elem_of_In. simpl. tauto. }
  split; [|repeat split; try done].
  intros H. specialize (H _ Hin 6 4 20727 ltac:(lia) ltac:(lia) eq_refl eq_refl).
  simpl in H. lia.
Qed.

Lemma monthLabels_placed_witness :
  mkMonthLabel "Oct" 7 ∈ getMonthLabels_at 20759
  /\ ml_label (mkMonthLabel "Oct" 7) = shortMonthName (topMonth 20759 7)
  /\ topMonth 20759 6 <> topMonth 20759 7.
Proof.
  assert (Hin : mkMonthLabel "Oct" 7 ∈ getMonthLabels_at 20759).
  { vm_compute. apply list_elem_of_In. simpl. tauto. }
  destruct (monthLabels_placed 20759) as (_ & _ & _ & H & _).
  destruct (H _ Hin) as [H1 H2].
  split; [exact Hin|]. split; [exact H1|]. apply (H2 6). simpl. lia.
Defined.

(** ** The wall clock *)

Lemma App_event_grid ev st clock k :
  heatmapCells (App_event ev st clock k).1 = heatmapCells st
  /\ monthLabels (App_event ev st clock k).1 = monthLabels st.
Proof. by destruct ev as [mood|[]]. Qed.

(** No event, render or effect touches the grid or the labels. *)
Lemma App_events_grid events : forall st clock k,
  heatmapCells (App_events events st clock k).1 = heatmapCells st
  /\ monthLabels (App_events events st clock k).1 = monthLabels st.
Proof.
  induction events as [|ev events IH]; intros st clock k; [done|].
  cbn [App_events]. unfold mbind, Clk_bind.
  destruct (App_event_grid ev st clock k) as [Hc Hl].
  destruct (App_event ev st clock k) as [st1 k1]. cbn [fst] in Hc, Hl.
  destruct (App_render st1 clock k1) as [a k2].
  unfold App_effect. unfold getTodayKey, mbind, Clk_bind, mret, Clk_ret, new_Date.
  destruct (IH (mkAppState (moodData st1)
                  (syncTodayMood (getDateKey (localDay (clock k2))) (moodData st1))
                  (heatmapCells st1) (monthLabels st1)) clock (S k2)) as [Hc' Hl'].
  cbn [heatmapCells monthLabels] in Hc', Hl'. split; congruence.
Qed.

(** The grid and the labels of a session are those of its mount: the
    second and the third reading of the clock. *)
Lemma App_session_grid stored events clock k :
  heatmapCells (run (App_session stored events) clock k)
  = buildHeatmapCells_at (localDay (clock (S k)))
  /\ monthLabels (run (App_session stored events) clock k)
     = getMonthLabels_at (localDay (clock (S (S k)))).
Proof.
  unfold run, App_session, mbind, Clk_bind.
  assert (Hm : forall st0 k0, App_mount stored clock k = (st0, k0) ->
    heatmapCells st0 = buildHeatmapCells_at (localDay (clock (S k)))
    /\ monthLabels st0 = getMonthLabels_at (localDay (clock (S (S k))))).
  { intros st0 k0 [= <- <-]. done. }
  destruct (App_mount stored clock k) as [st0 k0].
  destruct (Hm st0 k0 eq_refl) as [Hc Hl].
  destruct (App_render st0 clock k0) as [a k1].
  unfold App_effect. unfold getTodayKey, mbind, Clk_bind, mret, Clk_ret, new_Date.
  destruct (App_events_grid events
              (mkAppState (moodData st0)
                 (syncTodayMood (getDateKey (localDay (clock k1))) (moodData st0))
                 (heatmapCells st0) (monthLabels st0)) clock (S k1)) as [Hc' Hl'].
  cbn [heatmapCells monthLabels] in Hc', Hl'. split; congruence.
Qed.

(** A render pass all of whose readings fall on one day computes what that
    day yields, and shows the grid and the labels of the state. *)
Lemma App_render_day st (clock : nat -> Date) (k : nat) (day : Z) :
  (forall j, (k <= j)%nat -> localDay (clock j) = day) ->
  run (App_render st) clock k
  = withGrid (analytics_at day (moodData st)) (heatmapCells st) (monthLabels st).
Proof.
  intros Hday.
  unfold run, App_render, analytics_at, withGrid,
    getTodayKey, computeCurrentStreak,
    computeBestStreak, computeBestStreak_at, getWeekEntries, getFrequencyIn30Days.
  unfold computeCurrentStreak.
  cbv [mbind Clk_bind mret Clk_ret new_Date fst snd
       currentStreak bestStreak currentWeekEntries prevWeekEntries frequency30
       todayKey trend].
  destruct (Array_sort string_cmp (Object_keys (moodData st))) as [|key0 rest];
    cbv [mbind Clk_bind mret Clk_ret new_Date fst snd];
    rewrite ?Hday by lia; reflexivity.
Qed.

(** C5 (as the code has it).  No analytic function takes the instant as a
    parameter: each reads the wall clock when it is called.  The grid and
    the month labels are computed when the component is mounted and are
    kept through every event and render pass after that; the other
    analytics are computed anew by every render pass.  So after a mount
    that reads the clock from its reading [k] on, with the readings for the
    grid and the labels on [mountDay], and after any events, a render pass
    that reads the clock from its reading [k'] on, all on [day], shows the
    analytics of [day] over the history at that point, with the grid and
    the labels of [mountDay]; when the two days are the same, every
    computation takes that one day as today, and what the pass shows is a
    function of the history and that day alone. *)
Theorem pass_on_one_day (stored : MoodData) (events : list Event)
    (clock : nat -> Date) (k k' : nat) (mountDay day : Z) :
  localDay (clock (S k)) = mountDay ->
  localDay (clock (S (S k))) = mountDay ->
  (forall j, (k' <= j)%nat -> localDay (clock j) = day) ->
  let st := run (App_session stored events) clock k in
  let shown := run (App_render st) clock k' in
  shown = withGrid (analytics_at day (moodData st))
            (buildHeatmapCells_at mountDay) (getMonthLabels_at mountDay)
  /\ (mountDay = day -> shown = analytics_at day (moodData st)).
Proof.
  intros H1 H2 Hday st shown.
  destruct (App_session_grid stored events clock k) as [Hc Hl].
  fold st in Hc, Hl. rewrite H1 in Hc. rewrite H2 in Hl.
  assert (E : shown = withGrid (analytics_at day (moodData st))
                        (buildHeatmapCells_at mountDay) (getMonthLabels_at mountDay)).
  { unfold shown. rewrite (App_render_day st clock k' day Hday). by rewrite Hc, Hl. }
  split; [exact E|]. intros ->. rewrite E. reflexivity.
Qed.

(** A mount on 2 November 2026 over six recorded days, Good logged for
    that day, and a render pass on the same day. *)
Lemma pass_on_one_day_witness :
  let clock := fun _ : nat => mkDate 20759 "2026-11-02T08:32:00.000Z" in
  let st := run (App_session (sixDays 20759)
                   [LogMood (mkMoodOption "😊" "Good" "#86EFAC")]) clock 0 in
  run (App_render st) clock 24 = analytics_at 20759 (moodData st)
  /\ currentStreak (run (App_render st) clock 24) = 7%nat.
Proof.
  cbv zeta.
  pose proof (pass_on_one_day (sixDays 20759)
                [LogMood (mkMoodOption "😊" "Good" "#86EFAC")]
                (fun _ => mkDate 20759 "2026-11-02T08:32:00.000Z")
                0 24 20759 20759 eq_refl eq_refl (fun _ _ => eq_refl)) as H.
  cbv zeta in H. destruct H as [_ H]. specialize (H eq_refl).
  split; [exact H|]. rewrite H. vm_compute. reflexivity.
Defined.

(** C5 (as the claim words it) fails when midnight passes between mounting
    and rendering: the grid has 1 November 2026 as today in column 11, the
    key of today is that of 2 November, and no single day yields both. *)
Lemma pass_across_midnight :
  ~ singleInstant ∅ (midnightClock 20758) 0
  /\ todayKey (run (App_pass ∅) (midnightClock 20758) 0) = "2026-11-02"
  /\ grid_get (shownCells (run (App_pass ∅) (midnightClock 20758) 0)) 0 11
     = Some (mkHeatCell "2026-11-01" 11 0)
  /\ grid_get (shownCells (run (App_pass ∅) (midnightClock 20758) 0)) 1 11 = None
  /\ grid_get (buildHeatmapCells_at 20759) 1 11
     = Some (mkHeatCell "2026-11-02" 11 1).
Proof.
  assert (Hk : todayKey (run (App_pass ∅) (midnightClock 20758) 0) = "2026-11-02")
    by (vm_compute; reflexivity).
  assert (Hg : grid_get (shownCells (run (App_pass ∅) (midnightClock 20758) 0)) 1 11 = None)
    by (vm_compute; reflexivity).
  assert (Hg' : grid_get (buildHeatmapCells_at 20759) 1 11
                = Some (mkHeatCell "2026-11-02" 11 1))
    by (vm_compute; reflexivity).
  split; [|split; [exact Hk|split; [vm_compute; reflexivity|split; [exact Hg|exact Hg']]]].
  intros [today H].
  assert (Ht : today = 20759).
  { apply getDateKey_inj. transitivity "2026-11-02"; [|vm_compute; reflexivity].
    rewrite <- Hk, H. reflexivity. }
  subst today.
  apply (f_equal (fun a => grid_get (shownCells a) 1 11)) in H.
  rewrite Hg in H. cbv beta in H.
  change (shownCells (analytics_at 20759 ∅)) with (buildHeatmapCells_at 20759) in H.
  rewrite Hg' in H. discriminate H.
Qed.

(** ** Witnesses on a sample history *)

Lemma logging_today_witness :
  computeCurrentStreak_at 20759
    (handleMoodSelect_at 20759 "2026-11-02T08:32:00.000Z"
       (mkMoodOption "😊" "Good" "#86EFAC") (sixDays 20759))
  = S (computeCurrentStreak_at 20759 (sixDays 20759))
  /\ size (handleMoodSelect_at 20758 "2026-11-01T21:05:00.000Z"
             (mkMoodOption "😊" "Good" "#86EFAC") (sixDays 20759))
     = size (sixDays 20759).
Proof.
  split.
  - pose proof (logging_today (sixDays 20759) 20759 "2026-11-02T08:32:00.000Z"
                  (mkMoodOption "😊" "Good" "#86EFAC")) as H.
    cbv zeta in H. destruct H as (_ & _ & H & _).
    apply H. vm_compute. reflexivity.
  - pose proof (logging_today (sixDays 20759) 20758 "2026-11-01T21:05:00.000Z"
                  (mkMoodOption "😊" "Good" "#86EFAC")) as H.
    cbv zeta in H. destruct H as (_ & _ & _ & H).
    apply H. vm_compute. eexists. reflexivity.
Defined.

(** * Further properties of the code *)

(** ** Date keys and streak bounds *)

(** X1. Two calendar days have the same date key exactly when they are the
    same day: a history never holds two days under one key. *)
Theorem dateKey_same_iff_day (z1 z2 : Z) :
  getDateKey z1 = getDateKey z2 <-> z1 = z2.
Proof. split; [apply getDateKey_inj|by intros ->]. Qed.

Lemma streak_keys_NoDup today start (k : nat) :
  NoDup ((fun j : nat => getDateKey (today - (start + Z.of_nat j))) <$> seq 0 k).
Proof.
  apply NoDup_fmap_2_strong; [|apply NoDup_seq].
  intros j1 j2 _ _ E. apply getDateKey_inj in E. lia.
Qed.

Lemma currentStreak_le_size today (data : MoodData) :
  (computeCurrentStreak_at today data <= size data)%nat.
Proof.
  unfold computeCurrentStreak_at. cbv zeta.
  set (start := match data !! getDateKey today with Some _ => 0 | None => 1 end).
  destruct (streakLoop_scan data today (Z.to_nat (365 - start)) start 0%nat)
    as (k & -> & _ & Hall & _).
  rewrite Nat.add_0_l.
  set (keys := (fun j : nat => getDateKey (today - (start + Z.of_nat j))) <$> seq 0 k).
  assert (Hlen : length keys = k) by (unfold keys; by rewrite length_fmap, length_seq).
  rewrite <- Hlen, <- size_dom.
  rewrite <- (size_list_to_set (C := gset string) keys) by apply streak_keys_NoDup.
  apply subseteq_size. intros x Hx. apply elem_of_list_to_set in Hx.
  unfold keys in Hx. apply list_elem_of_fmap in Hx as (j & -> & Hj).
  apply elem_of_seq in Hj. apply elem_of_dom. apply Hall. lia.
Qed.

Lemma bestLoop_le prevKey rest : forall best current,
  (bestLoop prevKey rest best current <= Nat.max best (current + length rest))%nat.
Proof.
  revert prevKey. induction rest as [|key rest IH]; intros prevKey best current.
  - simpl. lia.
  - cbn [bestLoop length].
    destruct (diffDays prevKey key) as [[|[| |]|]|];
      try (etransitivity; [apply IH|]; lia).
    destruct (best <? S current)%nat eqn:E.
    + etransitivity; [apply IH|]. lia.
    + etransitivity; [apply IH|]. lia.
Qed.

(** X2. Neither streak exceeds the number of days recorded in the
    history. *)
Theorem streaks_le_records (data : MoodData) (today : Z) :
  (computeCurrentStreak_at today data <= size data)%nat
  /\ (computeBestStreak_at today data <= size data)%nat.
Proof.
  pose proof (currentStreak_le_size today data) as Hc.
  split; [exact Hc|]. unfold computeBestStreak_at.
  pose proof (Array_sort_length string_cmp (Object_keys data)) as Hl.
  unfold Object_keys in Hl at 2. rewrite length_fmap, length_map_to_list in Hl.
  destruct (Array_sort string_cmp (Object_keys data)) as [|key0 rest]; [lia|].
  cbv zeta. pose proof (bestLoop_le key0 rest 1 1). simpl in Hl. lia.
Qed.

Lemma streakLoop_ge (data : MoodData) today n : forall i acc,
  (acc <= streakLoop data today i n acc)%nat.
Proof.
  induction n as [|n IH]; intros i acc; simpl; [lia|].
  destruct (data !! getDateKey (today - i)); [|lia].
  etransitivity; [|apply IH]. lia.
Qed.

Lemma streakLoop_mono (data data' : MoodData) today n : forall i acc,
  data ⊆ data' ->
  (streakLoop data today i n acc <= streakLoop data' today i n acc)%nat.
Proof.
  induction n as [|n IH]; intros i acc Hsub; simpl; [lia|].
  destruct (data !! getDateKey (today - i)) as [e|] eqn:E.
  - destruct (lookup_weaken_is_Some data data' (getDateKey (today - i)) ltac:(eauto) Hsub)
      as [e' ->].
    by apply IH.
  - destruct (data' !! getDateKey (today - i)); [|lia].
    etransitivity; [|apply streakLoop_ge]. lia.
Qed.

(** X3. Recording more days never shortens the current streak: a history
    that holds every record of another has a current streak at least as
    long. *)
Theorem currentStreak_mono (data data' : MoodData) (today : Z) :
  data ⊆ data' ->
  (computeCurrentStreak_at today data <= computeCurrentStreak_at today data')%nat.
Proof.
  intros Hsub. unfold computeCurrentStreak_at. cbv zeta.
  destruct (data !! getDateKey today) as [e|] eqn:E.
  - destruct (lookup_weaken_is_Some data data' (getDateKey today) ltac:(eauto) Hsub)
      as [e' ->].
    by apply streakLoop_mono.
  - destruct (data' !! getDateKey today) as [e'|] eqn:E'.
    + change (Z.to_nat (365 - 0)) with (S (Z.to_nat (365 - 1))).
      cbn [streakLoop]. replace (today - 0) with today by lia. rewrite E'.
      change (0 + 1) with 1.
      etransitivity; [apply (streakLoop_mono data data'); done|].
      rewrite streakLoop_acc. lia.
    + by apply streakLoop_mono.
Qed.

Lemma currentStreak_mono_witness :
  sixDays 20759 ⊆ handleMoodSelect_at 20759 "2026-11-02T08:32:00.000Z"
                    (mkMoodOption "😊" "Good" "#86EFAC") (sixDays 20759)
  /\ (computeCurrentStreak_at 20759 (sixDays 20759)
      <= computeCurrentStreak_at 20759
           (handleMoodSelect_at 20759 "2026-11-02T08:32:00.000Z"
              (mkMoodOption "😊" "Good" "#86EFAC") (sixDays 20759)))%nat.
Proof.
  assert (H : sixDays 20759 ⊆ handleMoodSelect_at 20759 "2026-11-02T08:32:00.000Z"
                    (mkMoodOption "😊" "Good" "#86EFAC") (sixDays 20759)).
  { apply insert_subseteq. vm_compute. reflexivity. }
  split; [exact H|]. exact (currentStreak_mono _ _ 20759 H).
Defined.

(** X4. Right after a mood is logged for today, whatever the history was,
    today's record is the logged mood with the given time stamp and both
    streaks are at least 1. *)
Theorem streaks_after_logging (data : MoodData) (today : Z) (stamp : string)
    (mood : MoodOption) :
  let data' := handleMoodSelect_at today stamp mood data in
  data' !! getDateKey today
    = Some (mkMoodEntry (mo_emoji mood) (mo_label mood) (mo_color mood) stamp)
  /\ (1 <= computeCurrentStreak_at today data')%nat
  /\ (1 <= computeBestStreak_at today data')%nat.
Proof.
  intros data'.
  assert (Hl : data' !! getDateKey today
    = Some (mkMoodEntry (mo_emoji mood) (mo_label mood) (mo_color mood) stamp))
    by apply lookup_insert_eq.
  assert (Hc : (1 <= computeCurrentStreak_at today data')%nat).
  { unfold computeCurrentStreak_at. cbv zeta. rewrite Hl.
    change (Z.to_nat (365 - 0)) with (S (Z.to_nat (365 - 1))).
    cbn [streakLoop]. replace (today - 0) with today by lia. rewrite Hl.
    apply streakLoop_ge. }
  split; [exact Hl|]. split; [exact Hc|].
  unfold computeBestStreak_at.
  destruct (Array_sort string_cmp (Object_keys data')) as [|key0 rest] eqn:E.
  - apply sorted_keys_nil in E. rewrite E in Hl. by rewrite lookup_empty in Hl.
  - cbv zeta. lia.
Qed.

(** ** The empty history and reset *)

Lemma windowEntries_empty today from n : windowEntries ∅ today from n = [].
Proof.
  revert from. induction n as [|n IH]; intros from; [done|].
  by rewrite windowEntries_S, lookup_empty.
Qed.

Lemma freqLoop_empty today n : forall i counts,
  freqLoop ∅ today i n counts = counts.
Proof.
  induction n as [|n IH]; intros i counts; [done|].
  cbn [freqLoop]. by rewrite lookup_empty.
Qed.

(** X5. A reset whose storage removal does not throw leaves the empty
    history, for which, on every day, both streaks are 0, both weeks and the
    frequency list are empty, the trend is the no-data prompt and the bar
    scale is 1; the grid and the month labels are kept.  A reset whose
    storage removal throws changes nothing. *)
Theorem reset_clears (st : AppState) (today : Z) :
  let st' := handleReset false st in
  moodData st' = ∅ /\ todayMood st' = None
  /\ heatmapCells st' = heatmapCells st /\ monthLabels st' = monthLabels st
  /\ computeCurrentStreak_at today (moodData st') = 0%nat
  /\ computeBestStreak_at today (moodData st') = 0%nat
  /\ getWeekEntries_at today (moodData st') 0 = []
  /\ getWeekEntries_at today (moodData st') 7 = []
  /\ getFrequencyIn30Days_at today (moodData st') = []
  /\ maxFreq (getFrequencyIn30Days_at today (moodData st')) = 1%nat
  /\ trend_at today (moodData st') = NoData
  /\ handleReset true st = st.
Proof.
  intros st'. unfold st', handleReset. cbn [moodData todayMood heatmapCells monthLabels].
  assert (Hf : getFrequencyIn30Days_at today ∅ = []).
  { unfold getFrequencyIn30Days_at. cbv zeta. rewrite freqLoop_empty.
    unfold MOODS. cbn [List.map]. rewrite !lookup_empty. reflexivity. }
  assert (Hw : forall s, getWeekEntries_at today ∅ s = []).
  { intros s. by rewrite getWeekEntries_window, windowEntries_empty. }
  assert (Hb : computeBestStreak_at today ∅ = 0%nat).
  { unfold computeBestStreak_at. by rewrite (proj2 (sorted_keys_nil ∅) eq_refl). }
  assert (Ht : trend_at today ∅ = NoData).
  { unfold trend_at. cbv zeta. by rewrite !Hw. }
  split; [reflexivity|]. split; [reflexivity|]. split; [reflexivity|].
  split; [reflexivity|]. split; [apply currentStreak_empty|]. split; [exact Hb|].
  split; [apply Hw|]. split; [apply Hw|]. split; [exact Hf|].
  split; [by rewrite Hf|]. split; [exact Ht|reflexivity].
Qed.

(** ** The catalog *)

(** X6. [getMoodByLabel] finds each catalog mood by its label and nothing
    for any other label; so after a catalog mood is logged for today the
    effect that follows sets [todayMood] to that very mood. *)
Theorem moodByLabel_catalog (l : string) :
  (forall m, getMoodByLabel l = Some m <-> m ∈ MOODS /\ mo_label m = l)
  /\ (getMoodByLabel l = None <-> forall m, m ∈ MOODS -> mo_label m <> l)
  /\ (forall m data today stamp, m ∈ MOODS ->
        syncTodayMood (getDateKey today) (handleMoodSelect_at today stamp m data)
        = Some m).
Proof.
  assert (Hfind : forall m, m ∈ MOODS -> getMoodByLabel (mo_label m) = Some m).
  { intros m Hm. unfold MOODS in Hm.
    repeat (apply elem_of_cons in Hm as [->|Hm]; [reflexivity|]).
    by apply elem_of_nil in Hm. }
  assert (Hsome : forall m, getMoodByLabel l = Some m -> m ∈ MOODS /\ mo_label m = l).
  { intros m H. unfold getMoodByLabel in H. apply find_some in H as [Hin Heq].
    apply String.eqb_eq in Heq. split; [by apply list_elem_of_In|done]. }
  split; [|split].
  - intros m. split; [apply Hsome|]. intros [Hm <-]. by apply Hfind.
  - split.
    + intros Hnone m Hm Hl. rewrite <- Hl, (Hfind m Hm) in Hnone. done.
    + intros Hall. destruct (getMoodByLabel l) as [m|] eqn:E; [|done].
      destruct (Hsome m eq_refl) as [Hm Hl]. by destruct (Hall m Hm).
  - intros m data today stamp Hm. unfold syncTodayMood, handleMoodSelect_at.
    rewrite lookup_insert_eq. cbn [label]. by apply Hfind.
Qed.

(** ** The grid as a whole *)

Lemma heatmap_shape today : grid_shape (buildHeatmapCells_at today).
Proof.
  unfold buildHeatmapCells_at. cbv zeta.
  pose proof (getDay_range today) as Hdow.
  destruct (heatLoop_cells today (getDay today) (Z.to_nat DAYS_IN_HEATMAP) 0 emptyGrid)
    as [H _]; [done|lia|unfold DAYS_IN_HEATMAP; lia|apply grid_shape_empty| |done].
  intros r' c' _ _. rewrite grid_get_empty, cellAt_unfold.
  destruct (Z.leb_spec 0 (getDay today + 77 - (7 * c' + r'))); simpl; [|done].
  destruct (Z.ltb_spec (getDay today + 77 - (7 * c' + r')) 0); [lia|done].
Qed.

(** X7. The grid always has seven rows of twelve cells.  A cell is empty
    exactly when it lies in the last column below today's row (the days of
    this week still to come); every other cell holds a day of the last 84,
    records its own row and column, and its day falls on the weekday of its
    row. *)
Theorem heatmap_filled (today : Z) :
  let todayDow := getDay today in
  let grid := buildHeatmapCells_at today in
  grid_shape grid
  /\ (forall r c, 0 <= r < 7 -> 0 <= c < 12 ->
        (grid_get grid r c = None <-> c = 11 /\ todayDow < r)
        /\ (forall cell, grid_get grid r c = Some cell ->
              row cell = r /\ col cell = c
              /\ exists i, 0 <= i < 84 /\ i = todayDow + 77 - (7 * c + r)
                   /\ dateKey cell = getDateKey (today - i)
                   /\ getDay (today - i) = r)).
Proof.
  intros todayDow grid. split; [apply heatmap_shape|].
  intros r c Hr Hc. unfold grid. rewrite heatmap_cells by done. fold todayDow.
  pose proof (getDay_range today) as Hdow. fold todayDow in Hdow.
  rewrite cellAt_unfold.
  destruct (Z.leb_spec 0 (todayDow + 77 - (7 * c + r))) as [Hpos|Hneg]; simpl.
  - destruct (Z.ltb_spec (todayDow + 77 - (7 * c + r)) 84); [|lia].
    split; [split; [done|lia]|].
    intros cell [= <-]. simpl. split; [done|]. split; [done|].
    exists (todayDow + 77 - (7 * c + r)). split; [lia|]. split; [done|]. split; [done|].
    unfold getDay.
    pose proof (Z.div_mod (today + 4) 7 ltac:(lia)) as Hdm.
    unfold todayDow, getDay in *.
    replace (today - ((today + 4) mod 7 + 77 - (7 * c + r)) + 4)
      with (r + ((today + 4) / 7 - 11 + c) * 7) by lia.
    rewrite Z.mod_add by lia. apply Z.mod_small. lia.
  - split; [split; [lia|done]|]. intros cell [=].
Qed.

(** ** The frequency list as a whole *)

Lemma occurrences_le_length l entries :
  (occurrences l entries <= length entries)%nat.
Proof.
  unfold occurrences. induction entries as [|e entries IH]; simpl; [lia|].
  destruct (bool_decide (label e = l)); simpl; lia.
Qed.

Lemma frequency_counts today (data : MoodData) e :
  e ∈ getFrequencyIn30Days_at today data ->
  mood e ∈ MOODS /\ (1 <= count e <= 30)%nat.
Proof.
  unfold getFrequencyIn30Days_at. cbv zeta. rewrite Array_sort_perm.
  destruct e as [m c]. rewrite freq_entries_elem. intros (Hm & -> & Hpos).
  cbn [mood count]. split; [done|]. split; [lia|].
  rewrite freqLoop_counts, lookup_empty. simpl.
  etransitivity; [apply occurrences_le_length|apply windowEntries_length].
Qed.

Lemma list_max_bounds (l : list nat) :
  (forall x, x ∈ l -> (x <= list_max l)%nat)
  /\ (l <> [] -> list_max l ∈ l).
Proof.
  induction l as [|x l [IH1 IH2]].
  - split; [by intros ? ?%elem_of_nil|done].
  - change (list_max (x :: l)) with (Nat.max x (list_max l)). split.
    + intros y [->|Hy]%elem_of_cons; [lia|]. specialize (IH1 y Hy). lia.
    + intros _. destruct l as [|x' l].
      * simpl. rewrite Nat.max_0_r. by left.
      * destruct (Nat.max_spec x (list_max (x' :: l))) as [[_ ->]|[_ ->]].
        -- right. by apply IH2.
        -- by left.
Qed.

Lemma bar_ok_all c m : 1 <= c <= m -> m <= 30 -> bar_ok c m = true.
Proof.
  intros Hc Hm.
  assert (H : allBelow (fun m => allBelow (fun c => bar_ok c m) 1 (Z.to_nat m)) 1 30 = true)
    by (vm_compute; reflexivity).
  pose proof (allBelow_spec _ _ _ H m ltac:(lia)) as H1. cbv beta in H1.
  exact (allBelow_spec _ _ _ H1 c ltac:(lia)).
Qed.

Lemma bars_bounded (fr : list FreqEntry) :
  (forall e, e ∈ fr -> (1 <= count e <= 30)%nat) ->
  (maxFreq fr <= 30)%nat
  /\ (forall e, e ∈ fr ->
        (1 <= count e <= maxFreq fr)%nat
        /\ (10 <=? barWidth (count e) (maxFreq fr))%float = true
        /\ (barWidth (count e) (maxFreq fr) <=? 100)%float = true)
  /\ (fr = [] \/ exists e, e ∈ fr /\ barWidth (count e) (maxFreq fr) = 100%float).
Proof.
  intros Hcount.
  assert (Hmax : maxFreq fr = Nat.max 1 (list_max (count <$> fr)))
    by apply maxFreq_fold.
  destruct (list_max_bounds (count <$> fr)) as [Hub Hin].
  assert (Hle : forall e, e ∈ fr -> (count e <= maxFreq fr)%nat).
  { intros e He. rewrite Hmax.
    specialize (Hub (count e) ltac:(by apply list_elem_of_fmap_2)). lia. }
  assert (Htop : fr = [] \/ exists e, e ∈ fr /\ count e = maxFreq fr).
  { destruct fr as [|e0 fr0]; [by left|right].
    specialize (Hin ltac:(done)). apply list_elem_of_fmap in Hin as (e & Hmx & He).
    exists e. split; [done|]. specialize (Hcount e He). rewrite Hmax, Hmx. lia. }
  assert (H30 : (maxFreq fr <= 30)%nat).
  { destruct Htop as [->|(e & He & <-)]; [vm_compute; lia|].
    specialize (Hcount e He). lia. }
  assert (Hbar : forall e, e ∈ fr ->
     bar_ok (Z.of_nat (count e)) (Z.of_nat (maxFreq fr)) = true).
  { intros e He. specialize (Hcount e He). specialize (Hle e He).
    apply bar_ok_all; lia. }
  split; [exact H30|]. split.
  - intros e He. specialize (Hcount e He). specialize (Hle e He).
    specialize (Hbar e He). unfold bar_ok in Hbar. cbv zeta in Hbar.
    rewrite !Nat2Z.id in Hbar.
    apply andb_prop in Hbar as [Hbar _]. apply andb_prop in Hbar as [H1 H2].
    split; [lia|]. by split.
  - destruct Htop as [->|(e & He & Heq)]; [by left|right].
    exists e. split; [done|].
    specialize (Hbar e He). unfold bar_ok in Hbar. cbv zeta in Hbar.
    rewrite !Nat2Z.id in Hbar. apply andb_prop in Hbar as [_ Hbar].
    rewrite Heq, Z.eqb_refl in Hbar. simpl in Hbar.
    rewrite Heq. by apply FloatAxioms.Leibniz.eqb_spec in Hbar.
Qed.

Lemma frequency_length today (data : MoodData) :
  (length (getFrequencyIn30Days_at today data) <= 8)%nat.
Proof.
  unfold getFrequencyIn30Days_at. cbv zeta. rewrite Array_sort_length.
  etransitivity; [apply filter_length_le|]. by rewrite length_map.
Qed.

(** X8. In the frequency list of any history on any day there are at most
    eight entries, every count lies between 1 and 30 and is at most the
    scale [maxFreq], which is at most 30; every bar width lies between 10
    and 100 percent, and a non-empty list has a bar of exactly 100. *)
Theorem frequency_bars_bounded (data : MoodData) (today : Z) :
  let fr := getFrequencyIn30Days_at today data in
  (length fr <= 8)%nat
  /\ (forall e, e ∈ fr -> mood e ∈ MOODS /\ (1 <= count e <= 30)%nat)
  /\ (maxFreq fr <= 30)%nat
  /\ (forall e, e ∈ fr ->
        (1 <= count e <= maxFreq fr)%nat
        /\ (10 <=? barWidth (count e) (maxFreq fr))%float = true
        /\ (barWidth (count e) (maxFreq fr) <=? 100)%float = true)
  /\ (fr = [] \/ exists e, e ∈ fr /\ barWidth (count e) (maxFreq fr) = 100%float).
Proof.
  intros fr. split; [apply frequency_length|].
  split; [apply frequency_counts|].
  apply bars_bounded. intros e He. by destruct (frequency_counts today data e He).
Qed.

(** ** The trend with an inherited name *)

Lemma ltb_nan_r (x : float) : (x <? PrimFloat.nan)%float = false.
Proof.
  rewrite FloatAxioms.ltb_spec. change (Prim2SF PrimFloat.nan) with S754_nan.
  unfold SFltb, SFcompare. by destruct (Prim2SF x) as [| | |[] ? ?].
Qed.

Lemma ltb_nan_l (x : float) : (PrimFloat.nan <? x)%float = false.
Proof.
  rewrite FloatAxioms.ltb_spec. change (Prim2SF PrimFloat.nan) with S754_nan.
  reflexivity.
Qed.

Lemma ltb_nan_add (x : float) : (PrimFloat.nan + 0.5 <? x)%float = false.
Proof.
  rewrite FloatAxioms.ltb_spec, FloatAxioms.add_spec.
  change (Prim2SF PrimFloat.nan) with S754_nan. reflexivity.
Qed.

Lemma ltb_nan_sub (x : float) : (x <? PrimFloat.nan - 0.5)%float = false.
Proof.
  rewrite FloatAxioms.ltb_spec, FloatAxioms.sub_spec.
  change (Prim2SF PrimFloat.nan) with S754_nan.
  change (SF64sub S754_nan (Prim2SF 0.5)) with S754_nan.
  unfold SFltb, SFcompare. by destruct (Prim2SF x) as [| | |[] ? ?].
Qed.

(** X9.  When both weeks have records and some record of either week is
    labelled with a name inherited from [Object.prototype], the lookup in
    the score table finds the inherited member, the sum turns into a
    string, that week's average is NaN, both comparisons fail and the
    verdict is steady, whatever the other records are. *)
Theorem trend_inherited_name (data : MoodData) (today : Z) :
  let currentWeek := windowEntries data today 0 7 in
  let prevWeek := windowEntries data today 7 7 in
  currentWeek <> [] -> prevWeek <> [] ->
  (exists e, (e ∈ currentWeek \/ e ∈ prevWeek) /\ label e ∈ Object_prototype) ->
  trend_at today data = Steady.
Proof.
  intros cw pw Nc Np (e & He & Hl). unfold trend_at. cbv zeta.
  rewrite !getWeekEntries_window. fold cw pw. clearbody cw pw. unfold trendOf.
  destruct cw as [|e1 cw]; [done|]. destruct pw as [|e2 pw]; [done|].
  change (length (e1 :: cw) =? 0)%nat with false.
  change (length (e2 :: pw) =? 0)%nat with false. cbv iota beta. simpl andb.
  destruct He as [He|He].
  - rewrite (avgPositivity_nan (e1 :: cw)) by eauto.
    by rewrite ltb_nan_r, ltb_nan_l.
  - rewrite (avgPositivity_nan (e2 :: pw)) by eauto.
    by rewrite ltb_nan_add, ltb_nan_sub.
Qed.

(** On the sample the exact means of the catalog scores are 5 and 1, which
    the specification calls an upward trend. *)
Lemma trend_inherited_name_witness :
  exactTrend (windowEntries (inheritedHistory 20759) 20759 0 7)
    (windowEntries (inheritedHistory 20759) 20759 7 7) = Upward
  /\ trend_at 20759 (inheritedHistory 20759) = Steady.
Proof.
  split; [vm_compute; reflexivity|].
  apply (trend_inherited_name (inheritedHistory 20759) 20759).
  - vm_compute. discriminate.
  - vm_compute. discriminate.
  - exists (mkMoodEntry "" "constructor" "" "2026-11-01T08:32:00.000Z").
    split; [left; vm_compute; left|vm_compute; left].
Defined.

(** ** Reading date keys back *)

Lemma string_app_cons a (s t : string) : String a s +:+ t = String a (s +:+ t).
Proof. reflexivity. Qed.

Lemma string_app_nil (t : string) : "" +:+ t = t.
Proof. reflexivity. Qed.

Lemma string_app_assoc (s t u : string) : (s +:+ t) +:+ u = s +:+ (t +:+ u).
Proof.
  induction s as [|a s IH]; [by rewrite !string_app_nil|].
  by rewrite !string_app_cons, IH.
Qed.

Lemma digits_app s t : forall a,
  digits (s +:+ t) a = match digits s a with Some b => digits t b | None => None end.
Proof.
  induction s as [|c s IH]; intros a; [by rewrite string_app_nil|].
  rewrite string_app_cons. cbn [digits].
  destruct (digit_of c); [apply IH|done].
Qed.

Lemma no_dash_app s t : no_dash (s +:+ t) = no_dash s && no_dash t.
Proof.
  induction s as [|c s IH]; [by rewrite string_app_nil|].
  rewrite string_app_cons. cbn [no_dash]. rewrite IH. by rewrite andb_assoc.
Qed.

Lemma digit_ok_all d : 0 <= d < 10 -> digit_ok d = true.
Proof.
  intros Hd. apply (allBelow_spec digit_ok 0 10); [|lia]. vm_compute. reflexivity.
Qed.

(** The decimal digits [pretty] writes for a natural number: they hold no
    separator and read back as the number. *)
Lemma pretty_N_go_digits (x : N) :
  exists t (k : nat),
    (forall s, pretty_N_go x s = t +:+ s) /\ no_dash t = true
    /\ forall a, digits t a = Some (a * 10 ^ Z.of_nat k + Z.of_N x).
Proof.
  induction (N.lt_wf_0 x) as [x _ IH].
  destruct (decide (x = 0)%N) as [->|Hx].
  - exists "", 0%nat. split; [done|]. split; [done|]. intros a. simpl. f_equal. lia.
  - assert (0 < x)%N as Hpos by lia.
    destruct (IH (x `div` 10)%N ltac:(by apply N.div_lt)) as (t & k & Ht & Hnd & Hdig).
    pose proof (N.mod_lt x 10 ltac:(done)) as Hlt.
    assert (Hr : 0 <= Z.of_N (x `mod` 10) < 10).
    { split; [apply N2Z.is_nonneg|]. change 10 with (Z.of_N 10). by apply N2Z.inj_lt. }
    pose proof (digit_ok_all (Z.of_N (x `mod` 10)) Hr) as Hd.
    unfold digit_ok in Hd. rewrite N2Z.id in Hd.
    apply andb_prop in Hd as [Hd1 Hd2]. apply bool_decide_eq_true in Hd1.
    exists (t +:+ String (pretty_N_char (x `mod` 10)) ""), (S k). split; [|split].
    + intros s. rewrite pretty_N_go_step by done. rewrite Ht.
      by rewrite string_app_assoc.
    + rewrite no_dash_app, Hnd. simpl. by rewrite Hd2.
    + intros a. rewrite digits_app, Hdig. simpl. rewrite Hd1. f_equal.
      rewrite Nat2Z.inj_succ, Z.pow_succ_r by lia.
      rewrite N2Z.inj_div, N2Z.inj_mod. change (Z.of_N 10) with 10.
      pose proof (Z.div_mod (Z.of_N x) 10 ltac:(done)) as Hdm.
      generalize dependent (Z.of_N x `div` 10). generalize dependent (Z.of_N x `mod` 10).
      intros. nia.
Qed.

Lemma pretty_nonneg_digits (y : Z) :
  0 <= y -> no_dash (pretty y) = true /\ Number (pretty y) = Some y.
Proof.
  intros Hy. destruct y as [|p|p]; try done.
  change (pretty (Z.pos p)) with (pretty_N_go (N.pos p) "").
  destruct (pretty_N_go_digits (N.pos p)) as (t & k & Ht & Hnd & Hdig).
  rewrite Ht. rewrite no_dash_app, Hnd. split; [done|].
  unfold Number. rewrite digits_app, Hdig. simpl. f_equal; lia.
Qed.

Lemma split_plain s : no_dash s = true -> split "-" s = [s].
Proof.
  induction s as [|a s IH]; [done|]. simpl. intros H.
  apply andb_prop in H as [Ha Hs]. rewrite (IH Hs).
  destruct (Ascii.eqb a "-"); [done|done].
Qed.

Lemma split_field s t :
  no_dash s = true -> split "-" (s +:+ String "-" t) = s :: split "-" t.
Proof.
  induction s as [|a s IH]; intros H.
  - rewrite string_app_nil. reflexivity.
  - cbn [no_dash] in H. apply andb_prop in H as [Ha Hs].
    rewrite string_app_cons. cbn [split]. rewrite (IH Hs).
    destruct (Ascii.eqb a "-"); [done|done].
Qed.

Lemma pad2_plain_all v : 0 <= v <= 99 -> pad2_plain v = true.
Proof.
  intros Hv. apply (allBelow_spec pad2_plain 0 100); [|lia]. vm_compute. reflexivity.
Qed.

Lemma pad2_number v :
  0 <= v <= 99 -> Number (padStart (pretty v) 2 "0") = Some v.
Proof.
  intros Hv. pose proof (pad2_ok_all v Hv) as H. unfold pad2_ok in H.
  apply andb_prop in H as [_ H]. by apply bool_decide_eq_true in H.
Qed.

Lemma days_from_civil_day y m d :
  days_from_civil y m 1 + (d - 1) = days_from_civil y m d.
Proof. unfold days_from_civil. lia. Qed.

Lemma dateOfKey_getDateKey z :
  100 <= getFullYear z -> dateOfKey (getDateKey z) = Some z.
Proof.
  intros Hy. destruct (calendar_facts z) as (R & M & D & _).
  destruct (pretty_nonneg_digits (getFullYear z) ltac:(lia)) as [Hnd Hnum].
  pose proof (pad2_plain_all (getMonth z + 1) ltac:(lia)) as Pm.
  pose proof (pad2_plain_all (getDate z) ltac:(lia)) as Pd.
  pose proof (pad2_number (getMonth z + 1) ltac:(lia)) as Nm.
  pose proof (pad2_number (getDate z) ltac:(lia)) as Nd.
  unfold pad2_plain in Pm, Pd.
  unfold dateOfKey, getDateKey. cbv zeta.
  revert Pm Pd Nm Nd.
  generalize (padStart (pretty (getMonth z + 1)) 2 "0") as mm.
  generalize (padStart (pretty (getDate z)) 2 "0") as dd.
  intros dd mm Pm Pd Nm Nd.
  change (pretty (getFullYear z) +:+ "-" +:+ mm +:+ "-" +:+ dd)
    with (pretty (getFullYear z) +:+ String "-" (mm +:+ String "-" dd)).
  rewrite split_field by done. rewrite split_field by done.
  rewrite split_plain by done.
  cbn [fmap list_fmap]. rewrite Hnum, Nm, Nd.
  f_equal. unfold Date_of_fields.
  replace ((0 <=? getFullYear z) && (getFullYear z <=? 99)) with false.
  2:{ symmetry. apply andb_false_iff. right. apply Z.leb_gt. lia. }
  replace (getMonth z + 1 - 1) with (getMonth z) by lia.
  rewrite Z.div_small by lia. rewrite Z.mod_small by lia.
  rewrite days_from_civil_day. rewrite Z.add_0_r. exact R.
Qed.

(** X10. The parse of [computeBestStreak] reads a date key back as its day:
    for days of the year 100 or later, [split('-').map(Number)] followed by
    [new Date(y, m - 1, d)] inverts [getDateKey], so the day difference of
    two keys is the difference of their days. *)
Theorem dateKey_roundtrip (z1 z2 : Z) :
  100 <= getFullYear z1 -> 100 <= getFullYear z2 ->
  dateOfKey (getDateKey z1) = Some z1
  /\ diffDays (getDateKey z1) (getDateKey z2) = Some (z2 - z1).
Proof.
  intros H1 H2. unfold diffDays.
  rewrite (dateOfKey_getDateKey z1 H1), (dateOfKey_getDateKey z2 H2). done.
Qed.

Lemma dateKey_roundtrip_witness :
  (100 <= getFullYear 20758 /\ 100 <= getFullYear 20759)
  /\ dateOfKey (getDateKey 20758) = Some 20758
  /\ diffDays (getDateKey 20758) (getDateKey 20759) = Some (20759 - 20758).
Proof.
  assert (H1 : 100 <= getFullYear 20758) by (vm_compute; discriminate).
  assert (H2 : 100 <= getFullYear 20759) by (vm_compute; discriminate).
  split; [by split|]. exact (dateKey_roundtrip 20758 20759 H1 H2).
Defined.

(** A two-digit year is read as a year of the twentieth century: the key of
    1 January 50 parses as 1 January 1950. *)
Example dateKey_two_digit_year :
  getDateKey (-701265) = "50-01-01"
  /\ (getDateKey <$> dateOfKey "50-01-01") = Some "1950-01-01".
Proof. split; vm_compute; reflexivity. Qed.

(** ** The order of date keys *)

Lemma string_compare_refl (s : string) : String.compare s s = Eq.
Proof.
  induction s as [|a s IH]; [done|]. cbn [String.compare].
  unfold Ascii.compare. by rewrite N.compare_refl.
Qed.

Lemma string_compare_app (a b s t : string) :
  String.length a = String.length b ->
  String.compare (a +:+ s) (b +:+ t)
  = match String.compare a b with Eq => String.compare s t | c => c end.
Proof.
  revert b. induction a as [|x a IH]; intros [|y b] Hlen; try discriminate Hlen.
  - reflexivity.
  - rewrite !string_app_cons. cbn [String.compare].
    destruct (Ascii.compare x y); [|done..].
    apply IH. simpl in Hlen. lia.
Qed.

Lemma string_compare_lt_trans (s1 s2 s3 : string) :
  String.compare s1 s2 = Lt -> String.compare s2 s3 = Lt -> String.compare s1 s3 = Lt.
Proof.
  revert s2 s3. induction s1 as [|a1 s1 IH]; intros [|a2 s2] [|a3 s3] H12 H23;
    simpl in *; try done.
  destruct (Ascii.compare a1 a2) eqn:E12; try done.
  - apply Ascii.compare_eq_iff in E12 as ->.
    destruct (Ascii.compare a2 a3); try done. by eapply IH.
  - destruct (Ascii.compare a2 a3) eqn:E23; try done.
    + apply Ascii.compare_eq_iff in E23 as ->. by rewrite E12.
    + assert (Ascii.compare a1 a3 = Lt) as ->; [|done].
      unfold Ascii.compare in *. apply N.compare_lt_iff.
      apply N.compare_lt_iff in E12, E23. by eapply N.lt_trans.
Qed.

Lemma year_ok_all y : 1000 <= y <= 9998 -> year_ok y = true.
Proof.
  intros Hy. apply (allBelow_spec year_ok 1000 (Z.to_nat 8999)); [|lia].
  vm_compute. reflexivity.
Qed.

Lemma year_length y : 1000 <= y <= 9999 -> String.length (pretty y) = 4%nat.
Proof.
  intros Hy. destruct (decide (y = 9999)) as [->|]; [done|].
  pose proof (year_ok_all y ltac:(lia)) as H. unfold year_ok in H.
  apply andb_prop in H as [H _]. apply andb_prop in H as [H _].
  by apply Nat.eqb_eq in H.
Qed.

Lemma year_compare_lt y1 y2 :
  1000 <= y1 -> y1 < y2 -> y2 <= 9999 ->
  String.compare (pretty y1) (pretty y2) = Lt.
Proof.
  intros H1 Hlt H2.
  replace y2 with (y1 + 1 + Z.of_nat (Z.to_nat (y2 - y1 - 1))) in * by lia.
  generalize dependent (Z.to_nat (y2 - y1 - 1)). intros n. revert y1 H1.
  induction n as [|n IH]; intros y1 H1 Hlt H2.
  - replace (y1 + 1 + Z.of_nat 0) with (y1 + 1) by lia.
    pose proof (year_ok_all y1 ltac:(lia)) as H. unfold year_ok in H.
    apply andb_prop in H as [_ H]. by apply bool_decide_eq_true in H.
  - apply (string_compare_lt_trans _ (pretty (y1 + 1))).
    + pose proof (year_ok_all y1 ltac:(lia)) as H. unfold year_ok in H.
      apply andb_prop in H as [_ H]. by apply bool_decide_eq_true in H.
    + replace (y1 + 1 + Z.of_nat (S n)) with (y1 + 1 + 1 + Z.of_nat n) by lia.
      apply IH; lia.
Qed.

Lemma pad2_compare a b :
  0 <= a <= 99 -> 0 <= b <= 99 ->
  String.compare (padStart (pretty a) 2 "0") (padStart (pretty b) 2 "0")
  = Z.compare a b.
Proof.
  intros Ha Hb.
  assert (H : allBelow (fun a => allBelow (pad2_cmp_ok a) 0 100) 0 100 = true)
    by (vm_compute; reflexivity).
  pose proof (allBelow_spec _ _ _ H a ltac:(lia)) as H1. cbv beta in H1.
  pose proof (allBelow_spec _ _ _ H1 b ltac:(lia)) as H2.
  by apply bool_decide_eq_true in H2.
Qed.

(** Within one month the day of the month advances with the day. *)
Lemma same_month_date z (n : nat) :
  monthIndex (z + Z.of_nat n) = monthIndex z ->
  getDate (z + Z.of_nat n) = getDate z + Z.of_nat n.
Proof.
  induction n as [|n IH]; intros Hm.
  - replace (z + Z.of_nat 0) with z by lia. lia.
  - replace (z + Z.of_nat (S n)) with (z + Z.of_nat n + 1) in * by lia.
    pose proof (monthIndex_mono z (z + Z.of_nat n) ltac:(lia)) as M1.
    pose proof (calendar_step (z + Z.of_nat n)) as Hs.
    destruct Hs as [[Hmi Hd]|[Hmi _]]; [|lia].
    rewrite Hd, IH by lia. lia.
Qed.

(** Date keys of days in the years 1000..9999 are ordered as the days. *)
Lemma dateKey_compare_lt z1 z2 :
  1000 <= getFullYear z1 -> getFullYear z2 <= 9999 -> z1 < z2 ->
  String.compare (getDateKey z1) (getDateKey z2) = Lt.
Proof.
  intros Hy1 Hy2 Hlt.
  destruct (calendar_facts z1) as (_ & M1 & D1 & _).
  destruct (calendar_facts z2) as (_ & M2 & D2 & _).
  pose proof (monthIndex_mono z1 z2 ltac:(lia)) as Hmi.
  assert (Hd : monthIndex z1 = monthIndex z2 -> getDate z1 < getDate z2).
  { intros E. pose proof (same_month_date z1 (Z.to_nat (z2 - z1))) as H.
    replace (z1 + Z.of_nat (Z.to_nat (z2 - z1))) with z2 in H by lia.
    specialize (H ltac:(done)). lia. }
  unfold monthIndex in *. unfold getDateKey. cbv zeta.
  pose proof (pad2_length (getMonth z1 + 1) ltac:(lia)) as Lm1.
  pose proof (pad2_length (getMonth z2 + 1) ltac:(lia)) as Lm2.
  pose proof (pad2_compare (getMonth z1 + 1) (getMonth z2 + 1) ltac:(lia) ltac:(lia)) as Cm.
  pose proof (pad2_compare (getDate z1) (getDate z2) ltac:(lia) ltac:(lia)) as Cd.
  revert Lm1 Lm2 Cm Cd.
  generalize (padStart (pretty (getMonth z1 + 1)) 2 "0") as mm1.
  generalize (padStart (pretty (getMonth z2 + 1)) 2 "0") as mm2.
  generalize (padStart (pretty (getDate z1)) 2 "0") as dd1.
  generalize (padStart (pretty (getDate z2)) 2 "0") as dd2.
  intros dd2 dd1 mm2 mm1 Lm1 Lm2 Cm Cd.
  assert (Hy : getFullYear z1 <= getFullYear z2) by lia.
  rewrite string_compare_app
    by (rewrite !year_length by lia; done).
  destruct (decide (getFullYear z1 = getFullYear z2)) as [Ey|Ny].
  - rewrite Ey, string_compare_refl.
    change ("-" +:+ mm1 +:+ "-" +:+ dd1) with (String "-" (mm1 +:+ String "-" dd1)).
    change ("-" +:+ mm2 +:+ "-" +:+ dd2) with (String "-" (mm2 +:+ String "-" dd2)).
    cbn [String.compare]. change (Ascii.compare "-" "-") with Eq. cbv iota.
    rewrite string_compare_app by (by rewrite Lm1, Lm2).
    rewrite Cm.
    destruct (Z.compare_spec (getMonth z1 + 1) (getMonth z2 + 1)) as [Em|Hm|Hm];
      [|done|lia].
    cbn [String.compare]. change (Ascii.compare "-" "-") with Eq. cbv iota.
    rewrite Cd. apply Z.compare_lt_iff. apply Hd. lia.
  - rewrite year_compare_lt by lia. done.
Qed.

Lemma dateKey_cmp z1 z2 :
  1000 <= getFullYear z1 <= 9999 -> 1000 <= getFullYear z2 <= 9999 ->
  (string_cmp (getDateKey z1) (getDateKey z2) <=? 0) = (z1 <=? z2).
Proof.
  intros H1 H2. unfold string_cmp.
  destruct (Z.lt_trichotomy z1 z2) as [Hlt|[->|Hgt]].
  - rewrite dateKey_compare_lt by lia. simpl. symmetry. apply Z.leb_le. lia.
  - rewrite string_compare_refl. simpl. symmetry. apply Z.leb_le. lia.
  - rewrite String.compare_antisym, dateKey_compare_lt by lia. simpl.
    symmetry. apply Z.leb_gt. lia.
Qed.

(** ** The best streak of a history of date keys *)

Lemma sort_insert_fmap {A B} (f : A -> B) (cmp1 : B -> B -> Z) (cmp2 : A -> A -> Z)
    x (l : list A) :
  (forall y, y ∈ l -> (cmp1 (f x) (f y) <=? 0) = (cmp2 x y <=? 0)) ->
  sort_insert cmp1 (f x) (f <$> l) = f <$> sort_insert cmp2 x l.
Proof.
  induction l as [|y l IH]; intros H; [done|].
  cbn [fmap list_fmap sort_insert]. rewrite (H y) by (by left).
  destruct (cmp2 x y <=? 0); [done|].
  cbn [fmap list_fmap]. f_equal. apply IH. intros z Hz. apply H. by right.
Qed.

Lemma Array_sort_fmap {A B} (f : A -> B) (cmp1 : B -> B -> Z) (cmp2 : A -> A -> Z)
    (l : list A) :
  (forall x y, x ∈ l -> y ∈ l -> (cmp1 (f x) (f y) <=? 0) = (cmp2 x y <=? 0)) ->
  Array_sort cmp1 (f <$> l) = f <$> Array_sort cmp2 l.
Proof.
  induction l as [|x l IH]; intros H; [done|].
  cbn [fmap list_fmap Array_sort]. rewrite IH.
  - apply sort_insert_fmap. intros y Hy. rewrite Array_sort_perm in Hy.
    apply H; [by left|by right].
  - intros y z Hy Hz. apply H; by right.
Qed.

Lemma sort_insert_Z_sorted x l :
  StronglySorted Z.le l -> StronglySorted Z.le (sort_insert (fun a b => a - b) x l).
Proof.
  induction l as [|y l IH]; intros Hs; simpl.
  - repeat constructor.
  - apply StronglySorted_inv in Hs as [Hs Hy].
    destruct (Z.leb_spec (x - y) 0).
    + constructor; [by constructor|]. constructor; [lia|].
      rewrite Forall_forall in Hy |- *. intros z Hz. specialize (Hy z Hz). lia.
    + constructor; [by apply IH|]. rewrite sort_insert_perm.
      constructor; [lia|done].
Qed.

Lemma Array_sort_Z_sorted l : StronglySorted Z.le (Array_sort (fun a b => a - b) l).
Proof.
  induction l as [|x l IH]; simpl; [constructor|]. by apply sort_insert_Z_sorted.
Qed.

Lemma sorted_le_NoDup_lt (l : list Z) :
  StronglySorted Z.le l -> NoDup l -> StronglySorted Z.lt l.
Proof.
  induction 1 as [|x l Hs IH Hx]; intros Hnd; [constructor|].
  apply NoDup_cons in Hnd as [Hni Hnd]. constructor; [by apply IH|].
  rewrite Forall_forall in Hx |- *. intros y Hy. specialize (Hx y Hy).
  assert (x <> y) by (by intros ->). lia.
Qed.

Lemma keys_have_days (ks : list string) :
  (forall k, k ∈ ks -> exists z, k = getDateKey z /\ 1000 <= getFullYear z <= 9999) ->
  exists zs, ks = getDateKey <$> zs
             /\ forall z, z ∈ zs -> 1000 <= getFullYear z <= 9999.
Proof.
  induction ks as [|k ks IH]; intros H.
  - exists []. split; [done|]. by intros ? ?%elem_of_nil.
  - destruct (H k ltac:(by left)) as (z & -> & Hz).
    destruct IH as (zs & -> & Hzs); [intros; apply H; by right|].
    exists (z :: zs). split; [done|].
    intros z' [->|Hz']%elem_of_cons; [done|by apply Hzs].
Qed.

(** The sorted keys of a history of date keys are the keys of its days in
    ascending order. *)
Lemma sorted_keys_days (data : MoodData) :
  dateKeyed data ->
  exists ds, Array_sort string_cmp (Object_keys data) = getDateKey <$> ds
    /\ StronglySorted Z.lt ds
    /\ (forall z, z ∈ ds -> 1000 <= getFullYear z <= 9999)
    /\ (forall z, z ∈ ds <-> getDateKey z ∈ dom data).
Proof.
  intros Hk.
  assert (Hdom : forall k, k ∈ Object_keys data <-> k ∈ dom data).
  { intros k. unfold Object_keys. rewrite elem_of_dom.
    rewrite list_elem_of_fmap. split.
    - intros ([k' v] & -> & Hin). apply elem_of_map_to_list in Hin. eauto.
    - intros [v Hv]. exists (k, v). split; [done|]. by apply elem_of_map_to_list. }
  destruct (keys_have_days (Object_keys data)) as (zs & Ezs & Hzs).
  { intros k Hin. apply Hk. by apply Hdom. }
  assert (Hnd : NoDup zs).
  { apply (NoDup_fmap_1 getDateKey). rewrite <- Ezs. unfold Object_keys.
    apply NoDup_fst_map_to_list. }
  exists (Array_sort (fun a b => a - b) zs).
  split; [|split; [|split]].
  - rewrite Ezs. apply Array_sort_fmap. intros x y Hx Hy.
    rewrite dateKey_cmp by (by apply Hzs).
    destruct (Z.leb_spec x y), (Z.leb_spec (x - y) 0); lia.
  - apply sorted_le_NoDup_lt; [apply Array_sort_Z_sorted|].
    by rewrite Array_sort_perm.
  - intros z. rewrite Array_sort_perm. apply Hzs.
  - intros z. rewrite Array_sort_perm. rewrite <- Hdom, Ezs. split.
    + intros Hz. by apply list_elem_of_fmap_2.
    + intros Hz. apply list_elem_of_fmap in Hz as (z' & E & Hz').
      apply getDateKey_inj in E. by subst.
Qed.

Lemma bestLoop_runLoop ds : forall prev best current,
  100 <= getFullYear prev ->
  (forall z, z ∈ ds -> 100 <= getFullYear z) ->
  bestLoop (getDateKey prev) (getDateKey <$> ds) best current
  = runLoop prev ds best current.
Proof.
  induction ds as [|d ds IH]; intros prev best current Hp Hds; [done|].
  cbn [fmap list_fmap bestLoop runLoop].
  assert (Hd : 100 <= getFullYear d) by (apply Hds; by left).
  unfold diffDays. rewrite !dateOfKey_getDateKey by done.
  destruct (Z.eqb_spec d (prev + 1)) as [->|Hne].
  - replace (prev + 1 - prev) with 1 by lia.
    apply IH; [done|]. intros z Hz. apply Hds. by right.
  - assert (E : forall b c, match d - prev with
      | 1 => bestLoop (getDateKey d) (getDateKey <$> ds)
               (if (b <? S c)%nat then S c else b) (S c)
      | _ => bestLoop (getDateKey d) (getDateKey <$> ds) b 1%nat
      end = bestLoop (getDateKey d) (getDateKey <$> ds) b 1%nat).
    { intros b c. destruct (d - prev) as [|[p|p|]|p] eqn:E; try done. lia. }
    rewrite E. apply IH; [done|]. intros z Hz. apply Hds. by right.
Qed.

(** The scan over ascending days finds the longest run of consecutive
    days.  [P] holds of the days already scanned, [prev] is the last. *)
Lemma runLoop_longest ds : forall (P : Z -> Prop) prev best current,
  StronglySorted Z.lt (prev :: ds) ->
  P prev -> (forall x, P x -> x <= prev) ->
  (1 <= current <= best)%nat ->
  (forall j : nat, (j < current)%nat -> P (prev - Z.of_nat j)) ->
  (exists d, forall j : nat, (j < best)%nat -> P (d + Z.of_nat j)) ->
  (forall d (m : nat), (forall j : nat, (j < m)%nat -> P (d + Z.of_nat j)) ->
     (m <= best)%nat
     /\ (d + Z.of_nat m - 1 = prev -> (m <= current)%nat)) ->
  let n := runLoop prev ds best current in
  (exists d, forall j : nat, (j < n)%nat -> P (d + Z.of_nat j) \/ d + Z.of_nat j ∈ ds)
  /\ (forall d (m : nat),
        (forall j : nat, (j < m)%nat -> P (d + Z.of_nat j) \/ d + Z.of_nat j ∈ ds) ->
        (m <= n)%nat).
Proof.
  induction ds as [|x ds IH]; intros P prev best current Hs Hprev Hmax Hcb Hcur Hbest Hruns.
  - simpl. split.
    + destruct Hbest as [d Hd]. exists d. intros j Hj. left. by apply Hd.
    + intros d m Hm. apply (Hruns d m). intros j Hj.
      destruct (Hm j Hj) as [?|?%elem_of_nil]; done.
  - apply StronglySorted_inv in Hs as [Hs Hlt].
    apply Forall_cons in Hlt as [Hpx Hlt].
    assert (HPx : ~ P x) by (intros HP; specialize (Hmax x HP); lia).
    set (P' := fun z => P z \/ z = x).
    assert (Hequiv : forall z, (P' z \/ z ∈ ds) <-> (P z \/ z ∈ x :: ds)).
    { intros z. unfold P'. rewrite elem_of_cons. tauto. }
    assert (Hmax' : forall z, P' z -> z <= x).
    { intros z [Hz| ->]; [specialize (Hmax z Hz); lia|lia]. }
    (* a run inside the scanned days that holds [x] ends at [x] *)
    assert (Hend : forall d (m : nat),
      (forall j : nat, (j < m)%nat -> P' (d + Z.of_nat j)) ->
      (forall j : nat, (j < m)%nat -> P (d + Z.of_nat j))
      \/ ((1 <= m)%nat /\ d + Z.of_nat m - 1 = x
          /\ forall j : nat, (j < m - 1)%nat -> P (d + Z.of_nat j))).
    { intros d m Hm.
      destruct (decide (d <= x < d + Z.of_nat m)) as [Hin|Hno].
      - right. set (j0 := Z.to_nat (x - d)).
        assert (Hj0 : (j0 < m)%nat) by lia.
        assert (Ej0 : d + Z.of_nat j0 = x) by lia.
        clearbody j0. assert (j0 = (m - 1)%nat) as ->.
        { destruct (decide (j0 = (m - 1)%nat)); [done|].
          specialize (Hm (S j0) ltac:(lia)). apply Hmax' in Hm. lia. }
        split; [lia|]. split; [lia|]. intros j Hj.
        destruct (Hm j ltac:(lia)) as [?|E]; [done|lia].
      - left. intros j Hj. destruct (Hm j Hj) as [?|E]; [done|].
        lia. }
    cbn [runLoop]. cbv zeta.
    destruct (Z.eqb_spec x (prev + 1)) as [Ex|Nx].
    + set (best' := if (best <? S current)%nat then S current else best).
      assert (Hb' : (best <= best' /\ S current <= best')%nat
                    /\ (best' = best \/ best' = S current)).
      { unfold best'. destruct (Nat.ltb_spec best (S current)); lia. }
      destruct (IH P' x best' (S current)) as [H1 H2]; [done|by right|done|lia| | | |].
      * intros [|j] Hj.
        -- right. lia.
        -- left. replace (x - Z.of_nat (S j)) with (prev - Z.of_nat j) by lia.
           apply Hcur. lia.
      * destruct Hb' as [_ [->| ->]].
        -- destruct Hbest as [d Hd]. exists d. intros j Hj. left. by apply Hd.
        -- exists (x - Z.of_nat current). intros j Hj.
           destruct (decide (j = current)) as [->|].
           ++ right. lia.
           ++ left. replace (x - Z.of_nat current + Z.of_nat j)
                with (prev - Z.of_nat (current - 1 - j)) by lia.
              apply Hcur. lia.
      * intros d m Hm. destruct (Hend d m Hm) as [HP|(Hm1 & Hx & HP)].
        -- destruct (Hruns d m HP) as [Hb _]. split; [lia|].
           intros E. destruct m as [|m]; [lia|].
           specialize (HP m ltac:(lia)). exfalso. apply HPx.
           by replace x with (d + Z.of_nat m) by lia.
        -- destruct (Hruns d (m - 1)%nat HP) as [_ Hc].
           specialize (Hc ltac:(lia)). split; [lia|]. intros _. lia.
      * split.
        -- destruct H1 as [d Hd]. exists d. intros j Hj. apply Hequiv. by apply Hd.
        -- intros d m Hm. apply (H2 d m). intros j Hj. apply Hequiv. by apply Hm.
    + destruct (IH P' x best 1%nat) as [H1 H2]; [done|by right|done|lia| | | |].
      * intros j Hj. assert (j = 0%nat) as -> by lia. right. lia.
      * destruct Hbest as [d Hd]. exists d. intros j Hj. left. by apply Hd.
      * intros d m Hm. destruct (Hend d m Hm) as [HP|(Hm1 & Hx & HP)].
        -- destruct (Hruns d m HP) as [Hb _]. split; [lia|].
           intros E. destruct m as [|m]; [lia|].
           specialize (HP m ltac:(lia)). exfalso. apply HPx.
           by replace x with (d + Z.of_nat m) by lia.
        -- destruct (decide (m = 1%nat)) as [->|Hm2]; [split; lia|].
           exfalso. specialize (HP (m - 2)%nat ltac:(lia)).
           specialize (Hmax _ HP). lia.
      * split.
        -- destruct H1 as [d Hd]. exists d. intros j Hj. apply Hequiv. by apply Hd.
        -- intros d m Hm. apply (H2 d m). intros j Hj. apply Hequiv. by apply Hm.
Qed.

Lemma currentStreak_run today (data : MoodData) :
  exists d, recordedRun data d (computeCurrentStreak_at today data).
Proof.
  unfold computeCurrentStreak_at. cbv zeta.
  set (start := match data !! getDateKey today with Some _ => 0 | None => 1 end).
  destruct (streakLoop_scan data today (Z.to_nat (365 - start)) start 0%nat)
    as (k & -> & _ & Hall & _).
  rewrite Nat.add_0_l. exists (today - start - Z.of_nat k + 1).
  intros j Hj. specialize (Hall (k - 1 - j)%nat ltac:(lia)).
  unfold present in Hall. apply elem_of_dom.
  by replace (today - start - Z.of_nat k + 1 + Z.of_nat j)
    with (today - (start + Z.of_nat (k - 1 - j)%nat)) by lia.
Qed.

(** X11.  On a history whose keys are all date keys of the years 1000 to
    9999, [computeBestStreak] returns the length of the longest run of
    consecutive recorded days: some run of that length is recorded, and no
    recorded run is longer.  The current streak, which the function also
    takes the maximum with, is one of these runs and never raises the
    result. *)
Theorem bestStreak_longest_run (data : MoodData) (today : Z) :
  dateKeyed data ->
  let n := computeBestStreak_at today data in
  (exists d, recordedRun data d n)
  /\ (forall d m, recordedRun data d m -> (m <= n)%nat)
  /\ (computeCurrentStreak_at today data <= n)%nat.
Proof.
  intros Hk.
  destruct (sorted_keys_days data Hk) as (ds & E & Hs & Hy & Hdom).
  unfold computeBestStreak_at. rewrite E. destruct ds as [|d0 ds].
  - cbn [fmap list_fmap]. cbv zeta.
    assert (Hnone : forall d m, recordedRun data d m -> m = 0%nat).
    { intros d [|m] Hm; [done|]. specialize (Hm 0%nat ltac:(lia)).
      apply Hdom in Hm. by apply elem_of_nil in Hm. }
    split; [exists 0; intros j Hj; lia|]. split.
    + intros d m Hm. rewrite (Hnone d m Hm). lia.
    + destruct (currentStreak_run today data) as [d Hd].
      rewrite (Hnone d _ Hd). lia.
  - cbn [fmap list_fmap]. cbv zeta.
    rewrite bestLoop_runLoop.
    2:{ specialize (Hy d0 ltac:(by left)). lia. }
    2:{ intros z Hz. specialize (Hy z ltac:(by right)). lia. }
    assert (Hmem : forall z, (z = d0 \/ z ∈ ds) <-> getDateKey z ∈ dom data).
    { intros z. rewrite <- Hdom, elem_of_cons. tauto. }
    destruct (runLoop_longest ds (fun z => z = d0) d0 1%nat 1%nat) as [H1 H2].
    + done.
    + done.
    + intros x ->. lia.
    + lia.
    + intros j Hj. lia.
    + exists d0. intros j Hj. lia.
    + intros d m Hm. assert (m <= 1)%nat; [|lia].
      destruct m as [|[|m]]; [lia|lia|].
      pose proof (Hm 0%nat ltac:(lia)). pose proof (Hm 1%nat ltac:(lia)). lia.
    + set (n := runLoop d0 ds 1%nat 1%nat) in *.
      assert (Hall : forall d m, recordedRun data d m -> (m <= n)%nat).
      { intros d m Hm. apply (H2 d m). intros j Hj. apply Hmem. by apply Hm. }
      assert (Hcs : (computeCurrentStreak_at today data <= n)%nat).
      { destruct (currentStreak_run today data) as [d Hd]. by apply (Hall d). }
      rewrite Nat.max_l by done. split; [|by split].
      destruct H1 as [d Hd]. exists d. intros j Hj. apply Hmem. by apply Hd.
Qed.

Lemma bestStreak_longest_run_witness :
  dateKeyed (sixDays 20759)
  /\ computeBestStreak_at 20759 (sixDays 20759) = 6%nat
  /\ (exists d, recordedRun (sixDays 20759) d 6)
  /\ (forall d m, recordedRun (sixDays 20759) d m -> (m <= 6)%nat).
Proof.
  assert (Hk : dateKeyed (sixDays 20759)).
  { intros k Hin. apply elem_of_dom in Hin as [e He].
    apply elem_of_list_to_map_2 in He. cbn [fmap list_fmap] in He.
    repeat (apply elem_of_cons in He as [He|He];
      [injection He as -> _; eexists; split; [reflexivity|];
       split; apply Z.leb_le; vm_compute; reflexivity|]).
    by apply elem_of_nil in He. }
  assert (E : computeBestStreak_at 20759 (sixDays 20759) = 6%nat)
    by (vm_compute; reflexivity).
  pose proof (bestStreak_longest_run (sixDays 20759) 20759 Hk) as H.
  cbv zeta in H. rewrite E in H. destruct H as (H1 & H2 & _).
  split; [exact Hk|]. split; [exact E|]. split; [exact H1|exact H2].
Defined.

(** ** The most frequent label *)

Lemma occurrences_app l xs ys :
  occurrences l (xs ++ ys) = (occurrences l xs + occurrences l ys)%nat.
Proof. unfold occurrences. by rewrite List.filter_app, length_app. Qed.

Lemma occurrences_pos l entries :
  (0 < occurrences l entries)%nat <-> exists e, e ∈ entries /\ label e = l.
Proof.
  unfold occurrences. induction entries as [|e entries IH]; simpl.
  - split; [lia|]. by intros (? & ?%elem_of_nil & _).
  - case_bool_decide as E; simpl.
    + split; [|lia]. intros _. exists e. split; [by left|done].
    + rewrite IH. split.
      * intros (e' & ? & ?). exists e'. split; [by right|done].
      * intros (e' & [->|?]%elem_of_cons & ?); [done|eauto].
Qed.

(** The value a label gets when it is first stored, and the value the next
    round makes of a stored one. *)
Lemma countLabel_keys l counts :
  (countLabel l counts).*1
  = if bool_decide (l ∈ counts.*1) then counts.*1
    else if bool_decide (l = "__proto__") then counts.*1
    else counts.*1 ++ [l].
Proof.
  induction counts as [|[k c] counts IH]; cbn [countLabel fmap list_fmap fst].
  - rewrite (bool_decide_eq_false_2 (l ∈ [])) by (by intros ?%elem_of_nil).
    destruct (bool_decide (l = "__proto__")); [done|].
    by destruct (bool_decide (l ∈ Object_prototype)).
  - destruct (decide (k = l)) as [->|Hne]; cbn [fmap list_fmap fst].
    + rewrite (bool_decide_eq_true_2 (l ∈ l :: counts.*1)); [done|]. by left.
    + rewrite IH. destruct (decide (l ∈ counts.*1)) as [E|E].
      * rewrite (bool_decide_eq_true_2 _ E).
        rewrite bool_decide_eq_true_2; [done|]. by right.
      * rewrite (bool_decide_eq_false_2 _ E).
        rewrite (bool_decide_eq_false_2 (l ∈ k :: counts.*1)).
        -- by destruct (bool_decide (l = "__proto__")).
        -- intros [?|?]%elem_of_cons; congruence.
Qed.

Lemma countLabel_elem l counts k c :
  NoDup counts.*1 ->
  (k, c) ∈ countLabel l counts <->
    (k <> l /\ (k, c) ∈ counts)
    \/ (k = l
        /\ ((exists c', c = match c' with Num n => Num (S n) | Text => Text end
                        /\ (l, c') ∈ counts)
            \/ ((l ∉ counts.*1) /\ l <> "__proto__"
                /\ c = if bool_decide (l ∈ Object_prototype) then Text
                       else Num 1%nat))).
Proof.
  induction counts as [|[k0 c0] counts IH]; intros Hnd.
  - cbn [countLabel]. split.
    + intros Hin. right.
      destruct (bool_decide (l = "__proto__")) eqn:Ep; [by apply elem_of_nil in Hin|].
      apply bool_decide_eq_false in Ep.
      assert (k = l /\ c = if bool_decide (l ∈ Object_prototype) then Text else Num 1%nat)
        as [-> ->].
      { destruct (bool_decide (l ∈ Object_prototype));
          apply list_elem_of_singleton in Hin; by injection Hin as -> ->. }
      split; [done|]. right. split; [by intros ?%elem_of_nil|done].
    + intros [[_ ?%elem_of_nil]|[-> [(c' & _ & ?%elem_of_nil)|(_ & Hp & ->)]]]; [done|done|].
      rewrite (bool_decide_eq_false_2 (l = "__proto__")) by done.
      destruct (bool_decide (l ∈ Object_prototype)); by left.
  - cbn [fmap list_fmap fst] in Hnd.
    apply NoDup_cons in Hnd as [Hni Hnd]. specialize (IH Hnd).
    assert (Hkey : forall v, (k0, v) ∈ counts -> False).
    { intros v Hv. apply Hni. apply list_elem_of_fmap. by exists (k0, v). }
    cbn [countLabel]. destruct (decide (k0 = l)) as [->|Hne].
    + split.
      * intros [E|Hin]%elem_of_cons.
        -- injection E as -> ->. right. split; [done|]. left. exists c0.
           split; [done|by left].
        -- left. split; [|by right]. intros ->. by apply (Hkey c).
      * intros [[Hk H]|[-> H]].
        -- apply elem_of_cons in H as [H|Hin]; [congruence|by right].
        -- destruct H as [(c' & -> & H)|[Hno _]].
           ++ apply elem_of_cons in H as [H|Hin].
              ** injection H as <-. by left.
              ** by destruct (Hkey c').
           ++ exfalso. apply Hno. cbn [fmap list_fmap fst]. by left.
    + rewrite elem_of_cons, IH. split.
      * intros [E|[[Hk Hin]|[-> [(c' & -> & Hin)|(Hno & Hp & ->)]]]].
        -- injection E as -> ->. left. split; [done|by left].
        -- left. split; [done|by right].
        -- right. split; [done|]. left. exists c'. split; [done|by right].
        -- right. split; [done|]. right. split; [|done].
           cbn [fmap list_fmap fst]. intros [E|?]%elem_of_cons; [congruence|done].
      * intros [[Hk H]|[-> H]].
        -- apply elem_of_cons in H as [H|Hin]; [by left|]. right. left. done.
        -- destruct H as [(c' & -> & H)|(Hno & Hp & ->)].
           ++ apply elem_of_cons in H as [H|Hin]; [congruence|].
              right. right. split; [done|]. left. eauto.
           ++ right. right. split; [done|]. right. split; [|done].
              intros ?. apply Hno. cbn [fmap list_fmap fst]. by right.
Qed.

(** The tally after a run of records: one entry for each label seen other
    than [__proto__], in the order of first appearance; it holds the number
    of occurrences of the label, or a string when the label is an inherited
    name. *)
Lemma tally_spec entries :
  let counts := foldl (fun counts e => countLabel (label e) counts) [] entries in
  NoDup counts.*1
  /\ (forall k c, (k, c) ∈ counts <->
        (0 < occurrences k entries)%nat /\ k <> "__proto__"
        /\ c = if bool_decide (k ∈ Object_prototype) then Text
               else Num (occurrences k entries))
  /\ (forall K1 k K2, counts.*1 = K1 ++ k :: K2 ->
        exists pre e post, entries = pre ++ e :: post /\ label e = k
          /\ forall e', e' ∈ pre -> label e' ∈ K1 \/ label e' = "__proto__").
Proof.
  induction entries as [|e entries IH] using rev_ind; cbv zeta.
  - simpl. split; [constructor|]. split.
    + intros k c. split; [by intros ?%elem_of_nil|].
      unfold occurrences. simpl. lia.
    + intros [|? ?] ? ? [=].
  - rewrite foldl_app. cbn [foldl]. cbv zeta in IH.
    set (counts := foldl _ [] entries) in *.
    destruct IH as (Hnd & Hcount & Horder).
    assert (Hkeys : forall k, k ∈ counts.*1 <->
              (0 < occurrences k entries)%nat /\ k <> "__proto__").
    { intros k. rewrite list_elem_of_fmap. split.
      - intros ([k' c] & -> & Hin). apply Hcount in Hin as (? & ? & _). done.
      - intros [Hpos Hp].
        eexists (k, _). split; [done|]. apply Hcount. done. }
    assert (Hocc : forall k, occurrences k (entries ++ [e])
      = (occurrences k entries + if decide (k = label e) then 1 else 0)%nat).
    { intros k. rewrite occurrences_app. f_equal. unfold occurrences. simpl.
      case_bool_decide; destruct (decide (k = label e)); simpl; congruence. }
    clearbody counts. split; [|split].
    + rewrite countLabel_keys.
      destruct (bool_decide (label e ∈ counts.*1)) eqn:E; [done|].
      destruct (bool_decide (label e = "__proto__")); [done|].
      apply bool_decide_eq_false in E.
      apply NoDup_app. split; [done|]. split; [|apply NoDup_singleton].
      intros x Hx ->%list_elem_of_singleton. done.
    + intros k c. rewrite countLabel_elem by done. rewrite Hocc.
      destruct (decide (k = label e)) as [->|Hne].
      * split.
        -- intros [[? _]|[_ [(c' & -> & Hin)|(Hno & Hp & ->)]]]; [done| |].
           ++ apply Hcount in Hin as (Hpos & Hp & ->).
              split; [lia|]. split; [done|].
              destruct (bool_decide (label e ∈ Object_prototype)); [done|].
              f_equal. lia.
           ++ split; [lia|]. split; [done|].
              destruct (bool_decide (label e ∈ Object_prototype)); [done|].
              f_equal.
              destruct (occurrences (label e) entries) as [|n] eqn:En; [done|].
              exfalso. apply Hno. apply Hkeys. split; [lia|done].
        -- intros (_ & Hp & ->). right. split; [done|].
           destruct (occurrences (label e) entries) as [|n] eqn:En.
           ++ right. split.
              ** intros Hin%Hkeys. lia.
              ** split; [done|].
                 by destruct (bool_decide (label e ∈ Object_prototype)).
           ++ left.
              exists (if bool_decide (label e ∈ Object_prototype) then Text
                      else Num (S n)).
              split.
              ** destruct (bool_decide (label e ∈ Object_prototype)); [done|].
                 f_equal. lia.
              ** apply Hcount. rewrite En. split; [lia|done].
      * rewrite Nat.add_0_r. rewrite Hcount. split.
        -- intros [[_ H]|[? _]]; done.
        -- intros H. by left.
    + intros K1 k K2. pose proof (countLabel_keys (label e) counts) as EK'.
      destruct (decide (label e ∈ counts.*1)) as [E|E].
      * rewrite (bool_decide_eq_true_2 _ E) in EK'. rewrite EK'.
        intros EK. destruct (Horder K1 k K2 EK) as (pre & e0 & post & -> & Hl & Hpre).
        exists pre, e0, (post ++ [e]). split; [by rewrite <- app_assoc|done].
      * rewrite (bool_decide_eq_false_2 _ E) in EK'.
        destruct (decide (label e = "__proto__")) as [Ep|Ep].
        -- rewrite (bool_decide_eq_true_2 _ Ep) in EK'. rewrite EK'.
           intros EK.
           destruct (Horder K1 k K2 EK) as (pre & e0 & post & -> & Hl & Hpre).
           exists pre, e0, (post ++ [e]). split; [by rewrite <- app_assoc|done].
        -- rewrite (bool_decide_eq_false_2 _ Ep) in EK'. rewrite EK'.
           intros EK. destruct K2 as [|k2 K2 _] using rev_ind.
           ++ apply app_inj_tail in EK as [<- <-].
              exists entries, e, []. split; [done|]. split; [done|].
              intros e' He'.
              destruct (decide (label e' = "__proto__")); [by right|left].
              apply Hkeys. split; [|done]. apply occurrences_pos. eauto.
           ++ rewrite app_comm_cons, app_assoc in EK.
              apply app_inj_tail in EK as [EK _].
              destruct (Horder K1 k K2 EK) as (pre & e0 & post & -> & Hl & Hpre).
              exists pre, e0, (post ++ [e]). split; [by rewrite <- app_assoc|done].
Qed.

Lemma Object_entries_elem {A} (counts : list (string * A)) x :
  x ∈ Object_entries counts <-> x ∈ counts.
Proof.
  unfold Object_entries. rewrite elem_of_app, Array_sort_perm.
  rewrite !list_elem_of_In, !filter_In, <- !list_elem_of_In.
  rewrite !bool_decide_eq_true.
  destruct (arrayIndex x.1) eqn:E.
  - split; [intros [[? _]|[? _]]; done|]. intros ?. left. eauto.
  - split; [intros [[? _]|[? _]]; done|]. intros ?. right. eauto.
Qed.

Lemma Object_entries_plain {A} (counts : list (string * A)) :
  (forall x, x ∈ counts -> arrayIndex x.1 = None) ->
  Object_entries counts = counts.
Proof.
  intros H. unfold Object_entries.
  assert (E1 : List.filter (fun kc : string * A =>
             bool_decide (is_Some (arrayIndex kc.1))) counts = []).
  { induction counts as [|x counts IH]; [done|]. simpl.
    rewrite (H x) by (by left).
    rewrite bool_decide_eq_false_2 by (by intros [? [=]]).
    apply IH. intros y Hy. apply H. by right. }
  assert (E2 : List.filter (fun kc : string * A =>
             bool_decide (arrayIndex kc.1 = None)) counts = counts).
  { clear E1. induction counts as [|x counts IH]; [done|]. simpl.
    rewrite (H x) by (by left). rewrite bool_decide_eq_true_2 by done.
    f_equal. apply IH. intros y Hy. apply H. by right. }
  by rewrite E1, E2.
Qed.

(** The scan for the largest count keeps the first number that beats all
    numbers before it, and passes over the strings. *)
Lemma pick_spec (L : list (string * Added nat)) : forall b0 c0,
  exists b bc,
    foldl (fun '(best, bestCount) '(l, count) =>
             match count with
             | Num c => if (bestCount <? c)%nat then (l, c) else (best, bestCount)
             | Text => (best, bestCount)
             end)
          (b0, c0) L = (b, bc)
    /\ (((b, bc) = (b0, c0) /\ forall k c, (k, Num c) ∈ L -> (c <= c0)%nat)
        \/ (exists L1 L2, L = L1 ++ (b, Num bc) :: L2 /\ (c0 < bc)%nat
              /\ (forall k c, (k, Num c) ∈ L1 -> (c < bc)%nat)
              /\ (forall k c, (k, Num c) ∈ L2 -> (c <= bc)%nat))).
Proof.
  induction L as [|[k [c|]] L IH]; intros b0 c0.
  - exists b0, c0. split; [done|]. left. split; [done|]. by intros ? ? ?%elem_of_nil.
  - cbn [foldl]. destruct (Nat.ltb_spec c0 c) as [Hlt|Hge].
    + destruct (IH k c) as (b & bc & Er & [[E Hall]|(L1 & L2 & EL & Hc & H1 & H2)]);
        exists b, bc; (split; [done|]); right.
      * injection E as -> ->. exists [], L. split; [done|]. split; [done|].
        split; [by intros ? ? ?%elem_of_nil|done].
      * exists ((k, Num c) :: L1), L2. split; [by rewrite EL|]. split; [lia|].
        split; [|done]. intros k' c' [E'|Hin]%elem_of_cons; [|eauto].
        injection E' as -> ->. done.
    + destruct (IH b0 c0) as (b & bc & Er & [[E Hall]|(L1 & L2 & EL & Hc & H1 & H2)]);
        exists b, bc; (split; [done|]).
      * left. split; [done|].
        intros k' c' [E'|Hin]%elem_of_cons; [|eauto]. injection E' as -> ->. done.
      * right. exists ((k, Num c) :: L1), L2. split; [by rewrite EL|]. split; [done|].
        split; [|done]. intros k' c' [E'|Hin]%elem_of_cons; [|eauto].
        injection E' as -> ->. lia.
  - cbn [foldl].
    destruct (IH b0 c0) as (b & bc & Er & [[E Hall]|(L1 & L2 & EL & Hc & H1 & H2)]);
      exists b, bc; (split; [done|]).
    + left. split; [done|].
      intros k' c' [E'|Hin]%elem_of_cons; [done|eauto].
    + right. exists ((k, Text) :: L1), L2. split; [by rewrite EL|]. split; [done|].
      split; [|done]. intros k' c' [E'|Hin]%elem_of_cons; [done|eauto].
Qed.

(** What [getMostFrequentLabel] returns on one record or more: null when
    every label is an inherited name, and otherwise the winner of the scan,
    unless that is the empty label. *)
Lemma mostFrequent_winner e entries :
  let all := e :: entries in
  let counts := foldl (fun counts e => countLabel (label e) counts) [] all in
  ((forall e', e' ∈ all -> label e' ∈ Object_prototype)
   /\ getMostFrequentLabel all = None)
  \/ (exists b L1 L2,
        (b ∉ Object_prototype)
        /\ Object_entries counts = L1 ++ (b, Num (occurrences b all)) :: L2
        /\ (0 < occurrences b all)%nat
        /\ (forall k c, (k, Num c) ∈ L1 -> (c < occurrences b all)%nat)
        /\ (forall l, l ∉ Object_prototype ->
              (occurrences l all <= occurrences b all)%nat)
        /\ getMostFrequentLabel all = if decide (b = EmptyString) then None else Some b).
Proof.
  intros all counts.
  destruct (tally_spec all) as (Hnd & Hcount & _). fold counts in Hnd, Hcount.
  assert (Hnum : forall k c, (k, Num c) ∈ Object_entries counts <->
            (k ∉ Object_prototype) /\ c = occurrences k all /\ (0 < c)%nat).
  { intros k c. rewrite Object_entries_elem, Hcount. split.
    - intros (Hpos & Hp & E).
      destruct (bool_decide (k ∈ Object_prototype)) eqn:Ek; [done|].
      apply bool_decide_eq_false in Ek. injection E as ->. done.
    - intros (Hk & -> & Hpos). split; [done|]. split.
      + intros ->. apply Hk. unfold Object_prototype.
        repeat (first [by left | right]).
      + by rewrite bool_decide_eq_false_2. }
  unfold getMostFrequentLabel. fold all. cbv zeta. fold counts.
  change (match all with [] => None | _ => ?x end) with x.
  destruct (pick_spec (Object_entries counts) EmptyString 0%nat)
    as (b & bc & -> & [[E Hall]|(L1 & L2 & EL & Hc & H1 & H2)]).
  - left. injection E as -> ->. split; [|done].
    intros e' He'.
    destruct (decide (label e' ∈ Object_prototype)) as [|Hno]; [done|].
    assert (Hin : (label e', Num (occurrences (label e') all)) ∈ Object_entries counts).
    { apply Hnum. split; [done|]. split; [done|]. apply occurrences_pos. eauto. }
    apply Hall in Hin.
    assert (0 < occurrences (label e') all)%nat; [|lia].
    apply occurrences_pos. eauto.
  - right.
    assert (Hb : (b ∉ Object_prototype) /\ bc = occurrences b all /\ (0 < bc)%nat).
    { apply Hnum. rewrite EL. apply elem_of_app. right. by left. }
    destruct Hb as (Hb & -> & Hpos).
    exists b, L1, L2. split; [done|]. split; [done|]. split; [done|].
    split; [done|]. split; [|done].
    intros l Hl. destruct (occurrences l all) as [|n] eqn:El; [lia|]. rewrite <- El.
    assert (Hin : (l, Num (occurrences l all)) ∈ Object_entries counts).
    { apply Hnum. split; [done|]. split; [done|lia]. }
    rewrite EL in Hin. apply elem_of_app in Hin as [Hin|[E|Hin]%elem_of_cons].
    + apply H1 in Hin. lia.
    + injection E as ->. lia.
    + by apply H2 in Hin.
Qed.

(** X12.  [getMostFrequentLabel] returns a label that occurs most often
    among the labels that are not names inherited from [Object.prototype]:
    the label returned is none of these names, occurs, and no other such
    label occurs more often.  An inherited name never wins, since its count
    is a string.  The result is null when every label is an inherited name
    (also on no records), and when the winner is the empty label, which the
    final [best || null] turns into null. *)
Theorem mostFrequent_max (entries : list MoodEntry) :
  match getMostFrequentLabel entries with
  | Some l =>
      l <> EmptyString /\ (l ∉ Object_prototype)
      /\ (0 < occurrences l entries)%nat
      /\ forall l', l' ∉ Object_prototype ->
           (occurrences l' entries <= occurrences l entries)%nat
  | None =>
      (forall e, e ∈ entries -> label e ∈ Object_prototype)
      \/ ((0 < occurrences EmptyString entries)%nat
          /\ forall l', l' ∉ Object_prototype ->
               (occurrences l' entries <= occurrences EmptyString entries)%nat)
  end.
Proof.
  destruct entries as [|e entries]; [left; by intros ? ?%elem_of_nil|].
  destruct (mostFrequent_winner e entries)
    as [[Hall ->]|(b & L1 & L2 & Hb & _ & Hpos & _ & Hmax & ->)]; [by left|].
  destruct (decide (b = EmptyString)) as [->|Hne].
  - right. done.
  - done.
Qed.

(** X13.  When no label is an array index, ties go to the label seen
    first: every label that appears before the first record of the
    returned label is an inherited name or occurs strictly less often.
    (Keys that are array indices are enumerated first, whatever the order
    of the records.) *)
Theorem mostFrequent_first (entries : list MoodEntry) (l : string) :
  (forall e, e ∈ entries -> arrayIndex (label e) = None) ->
  getMostFrequentLabel entries = Some l ->
  exists pre e post, entries = pre ++ e :: post /\ label e = l
    /\ forall e', e' ∈ pre ->
         label e' ∈ Object_prototype
         \/ (occurrences (label e') entries < occurrences l entries)%nat.
Proof.
  intros Hplain Hres. destruct entries as [|e0 entries]; [done|].
  destruct (mostFrequent_winner e0 entries)
    as [[_ Eres]|(b & L1 & L2 & Hb & EL & Hpos & H1 & Hmax & Eres)];
    rewrite Eres in Hres; [done|].
  destruct (decide (b = EmptyString)); [done|].
  injection Hres as ->.
  destruct (tally_spec (e0 :: entries)) as (Hnd & Hcount & Horder).
  cbv zeta in EL. set (counts := foldl _ [] (e0 :: entries)) in *.
  rewrite Object_entries_plain in EL.
  2:{ intros [k c] Hin. apply Hcount in Hin as (Hin & _).
      apply occurrences_pos in Hin as (e' & He' & <-). by apply Hplain. }
  destruct (Horder (L1.*1) l (L2.*1)) as (pre & e & post & E & Hl & Hpre).
  { rewrite EL. by rewrite fmap_app. }
  exists pre, e, post. split; [done|]. split; [done|].
  intros e' He'. apply Hpre in He' as [He'|He'].
  - apply list_elem_of_fmap in He' as ([k c] & -> & Hin). cbn [fst].
    assert (Hin' : (k, c) ∈ counts) by (rewrite EL; apply elem_of_app; by left).
    apply Hcount in Hin' as (_ & _ & Ec).
    destruct (bool_decide (k ∈ Object_prototype)) eqn:Ek.
    + left. by apply bool_decide_eq_true in Ek.
    + right. subst c. by apply (H1 k).
  - left. rewrite He'. unfold Object_prototype. repeat (first [by left | right]).
Qed.

Lemma mostFrequent_first_witness :
  let entries := entryOf <$> ["Calm"; "Joyful"; "Joyful"; "Calm"] in
  (forall e, e ∈ entries -> arrayIndex (label e) = None)
  /\ getMostFrequentLabel entries = Some "Calm"
  /\ exists pre e post, entries = pre ++ e :: post /\ label e = "Calm"
       /\ forall e', e' ∈ pre ->
            label e' ∈ Object_prototype
            \/ (occurrences (label e') entries < occurrences "Calm" entries)%nat.
Proof.
  cbv zeta.
  assert (H1 : forall e, e ∈ entryOf <$> ["Calm"; "Joyful"; "Joyful"; "Calm"] ->
                 arrayIndex (label e) = None).
  { intros e He. cbn [fmap list_fmap] in He.
    repeat (apply elem_of_cons in He as [->|He]; [reflexivity|]).
    by apply elem_of_nil in He. }
  assert (H2 : getMostFrequentLabel (entryOf <$> ["Calm"; "Joyful"; "Joyful"; "Calm"])
               = Some "Calm") by reflexivity.
  split; [exact H1|]. split; [exact H2|].
  exact (mostFrequent_first _ _ H1 H2).
Defined.

(** A label that is an array index is enumerated before the others and
    wins a tie although it was seen later; an inherited name never wins,
    however often it occurs. *)
Example mostFrequent_samples :
  getMostFrequentLabel [entryOf "b"; entryOf "1"] = Some "1"
  /\ getMostFrequentLabel [entryOf "b"; entryOf "01"] = Some "b"
  /\ getMostFrequentLabel [entryOf ""; entryOf "a"] = None
  /\ getMostFrequentLabel [entryOf "a"; entryOf "toString"; entryOf "toString"]
     = Some "a"
  /\ getMostFrequentLabel [entryOf "constructor"] = None
  /\ getMostFrequentLabel [entryOf "constructor"; entryOf "a"] = Some "a"
  /\ getMostFrequentLabel [entryOf "__proto__"; entryOf "__proto__"] = None.
Proof. repeat split. Qed.

(** ** The number of month labels *)

(** Every day adds at least one to 31 times the month count plus the day of
    the month. *)
Lemma calendar_grow z (n : nat) :
  31 * monthIndex z + getDate z + Z.of_nat n
  <= 31 * monthIndex (z + Z.of_nat n) + getDate (z + Z.of_nat n).
Proof.
  induction n as [|n IH].
  - replace (z + Z.of_nat 0) with z by lia. lia.
  - replace (z + Z.of_nat (S n)) with (z + Z.of_nat n + 1) by lia.
    pose proof (calendar_step (z + Z.of_nat n)).
    destruct (calendar_facts (z + Z.of_nat n)) as (_ & _ & ? & _). lia.
Qed.

(** A week later the month is the same or the next one. *)
Lemma week_step z :
  (monthIndex (z + 7) = monthIndex z /\ getMonth (z + 7) = getMonth z)
  \/ (monthIndex (z + 7) = monthIndex z + 1 /\ getMonth (z + 7) <> getMonth z).
Proof.
  pose proof (monthIndex_mono z (z + 7) ltac:(lia)) as Hlo.
  pose proof (calendar_span z 7) as Hhi. change (Z.of_nat 7) with 7 in Hhi.
  destruct (calendar_facts z) as (_ & ? & ? & _).
  destruct (calendar_facts (z + 7)) as (_ & ? & ? & _).
  unfold monthIndex in *. lia.
Qed.

(** Eleven weeks span two or three changes of month. *)
Lemma eleven_weeks z : 2 <= monthIndex (z + 77) - monthIndex z <= 3.
Proof.
  pose proof (calendar_grow z 77) as Hlo. change (Z.of_nat 77) with 77 in Hlo.
  destruct (calendar_facts z) as (_ & _ & ? & _ & Hhi).
  destruct (calendar_facts (z + 77)) as (_ & _ & ? & _). lia.
Qed.

Lemma placeLabels_length today n : forall c : nat,
  (0 < c)%nat -> (c + n <= 12)%nat ->
  Z.of_nat (length (placeLabels today ((fun k : nat => Z.of_nat k) <$> seq c n)
                      (Some (topMonth today (Z.of_nat c - 1)))))
  = monthIndex (today - (getDay today + 77 - 7 * (Z.of_nat c + Z.of_nat n - 1)))
    - monthIndex (today - (getDay today + 77 - 7 * (Z.of_nat c - 1))).
Proof.
  induction n as [|n IH]; intros c Hc Hn.
  - cbn [seq fmap list_fmap placeLabels length].
    replace (Z.of_nat c + Z.of_nat 0 - 1) with (Z.of_nat c - 1) by lia. lia.
  - cbn [seq fmap list_fmap placeLabels].
    rewrite columnMonth_top by lia.
    specialize (IH (S c) ltac:(lia) ltac:(lia)).
    replace (Z.of_nat (S c) - 1) with (Z.of_nat c) in IH by lia.
    replace (Z.of_nat (S c) + Z.of_nat n - 1)
      with (Z.of_nat c + Z.of_nat (S n) - 1) in IH by lia.
    set (z := today - (getDay today + 77 - 7 * (Z.of_nat c - 1))).
    assert (Ez : today - (getDay today + 77 - 7 * Z.of_nat c) = z + 7)
      by (unfold z; lia).
    assert (Et : topMonth today (Z.of_nat c) = getMonth (z + 7))
      by (unfold topMonth; by rewrite Ez).
    assert (Et' : topMonth today (Z.of_nat c - 1) = getMonth z) by done.
    rewrite Ez in IH.
    destruct (week_step z) as [[Hm Hg]|[Hm Hg]].
    + rewrite bool_decide_eq_true_2 by (f_equal; congruence).
      replace (topMonth today (Z.of_nat c - 1)) with (topMonth today (Z.of_nat c))
        by congruence.
      rewrite IH. lia.
    + rewrite bool_decide_eq_false_2 by (intros [= E]; congruence).
      cbn [length]. rewrite Nat2Z.inj_succ, IH. lia.
Qed.

Lemma placeLabels_sorted today n : forall (c : nat) last,
  (c + n <= 12)%nat ->
  (last = None /\ c = 0%nat)
  \/ (last = Some (topMonth today (Z.of_nat c - 1)) /\ (0 < c)%nat) ->
  StronglySorted (fun a b => ml_col a < ml_col b)
    (placeLabels today ((fun k : nat => Z.of_nat k) <$> seq c n) last).
Proof.
  induction n as [|n IH]; intros c last Hn Hlast; [constructor|].
  cbn [seq fmap list_fmap placeLabels]. rewrite columnMonth_top by lia.
  case_bool_decide as E.
  - apply IH; [lia|]. right. split; [|lia]. rewrite E. do 2 f_equal. lia.
  - constructor.
    + apply IH; [lia|]. right. split; [|lia]. do 2 f_equal. lia.
    + apply Forall_forall. intros l Hl.
      apply placeLabels_elem in Hl as (k & Hk & -> & _); [simpl; lia|lia|].
      right. split; [|lia]. do 2 f_equal. lia.
Qed.

Lemma monthLabels_head today :
  getMonthLabels_at today
  = mkMonthLabel (shortMonthName (topMonth today 0)) 0
    :: placeLabels today ((fun k : nat => Z.of_nat k) <$> seq 1 11)
         (Some (topMonth today 0)).
Proof.
  rewrite monthLabels_spec. unfold monthLabelsSpec.
  change (seq 0 12) with (0%nat :: seq 1 11). rewrite fmap_cons.
  generalize ((fun k : nat => Z.of_nat k) <$> seq 1 11). intros cols.
  change (Z.of_nat 0) with 0. cbn [placeLabels].
  rewrite columnMonth_top by lia. reflexivity.
Qed.

(** X14.  The month labels of the heatmap: the first stands over the
    leftmost column, the columns of the labels increase strictly from left
    to right, and there are always three or four of them, since the
    Sundays of twelve weeks fall in three or four months. *)
Theorem monthLabels_count (today : Z) :
  let labels := getMonthLabels_at today in
  (exists rest, labels = mkMonthLabel (shortMonthName (topMonth today 0)) 0 :: rest)
  /\ StronglySorted (fun a b => ml_col a < ml_col b) labels
  /\ (3 <= length labels <= 4)%nat.
Proof.
  cbv zeta. split; [|split].
  - rewrite monthLabels_head. eexists. reflexivity.
  - rewrite monthLabels_spec. apply placeLabels_sorted; [lia|by left].
  - rewrite monthLabels_head. cbn [length].
    pose proof (placeLabels_length today 11 1 ltac:(lia) ltac:(lia)) as H.
    change (Z.of_nat 1 - 1) with 0 in H.
    change (Z.of_nat 1 + Z.of_nat 11 - 1) with 11 in H.
    pose proof (eleven_weeks (today - (getDay today + 77 - 7 * 0))) as H'.
    replace (today - (getDay today + 77 - 7 * 0) + 77)
      with (today - (getDay today + 77 - 7 * 11)) in H' by lia.
    revert H H'.
    generalize (placeLabels today ((fun k : nat => Z.of_nat k) <$> seq 1 11)
                  (Some (topMonth today 0))).
    intros labels H H'. lia.
Qed.

(** Both counts occur. *)
Example monthLabels_three_or_four :
  ml_label <$> getMonthLabels_at 20759 = ["Aug"; "Sep"; "Oct"; "Nov"]
  /\ ml_label <$> getMonthLabels_at 20749 = ["Aug"; "Sep"; "Oct"].
Proof. split; reflexivity. Qed.

(** ** The analytics after a mood is logged *)

(** A record under today's key is not seen by a window that starts on an
    earlier day. *)
Lemma windowEntries_insert_past data today e n : forall from,
  1 <= from ->
  windowEntries (<[getDateKey today := e]> data) today from n
  = windowEntries data today from n.
Proof.
  induction n as [|n IH]; intros from Hfrom; [done|].
  rewrite !windowEntries_S. rewrite lookup_insert_ne.
  - rewrite IH by lia. done.
  - intros E. apply getDateKey_inj in E. lia.
Qed.

Lemma windowEntries_insert_today data today e n :
  windowEntries (<[getDateKey today := e]> data) today 0 (S n)
  = e :: windowEntries data today 1 n.
Proof.
  rewrite windowEntries_S. replace (today - 0) with today by lia.
  rewrite lookup_insert_eq. change (0 + 1) with 1.
  by rewrite windowEntries_insert_past.
Qed.

(** X15.  After a mood is logged today, the weekly and monthly analytics
    see it: the current week's records begin with the new record, followed
    by the records of the six days before; the previous week's records are
    unchanged; the insight is neither of the two messages for an empty
    current week; and a mood of the catalog stands in the 30-day frequency
    list with one more than its count over the 29 days before. *)
Theorem analytics_after_logging (data : MoodData) (today : Z) (stamp : string)
    (mood : MoodOption) :
  let data' := handleMoodSelect_at today stamp mood data in
  let entry := mkMoodEntry (mo_emoji mood) (mo_label mood) (mo_color mood) stamp in
  getWeekEntries_at today data' 0 = entry :: windowEntries data today 1 6
  /\ getWeekEntries_at today data' 7 = getWeekEntries_at today data 7
  /\ trend_at today data' <> NoData
  /\ trend_at today data' <> NothingThisWeek
  /\ (mood ∈ MOODS ->
      mkFreqEntry mood (S (occurrences (mo_label mood) (windowEntries data today 1 29)))
        ∈ getFrequencyIn30Days_at today data').
Proof.
  intros data' entry. unfold data', handleMoodSelect_at. cbv zeta. fold entry.
  assert (E0 : getWeekEntries_at today (<[getDateKey today := entry]> data) 0
               = entry :: windowEntries data today 1 6).
  { rewrite getWeekEntries_window. apply windowEntries_insert_today. }
  assert (E7 : getWeekEntries_at today (<[getDateKey today := entry]> data) 7
               = getWeekEntries_at today data 7).
  { rewrite !getWeekEntries_window. by apply windowEntries_insert_past. }
  split; [exact E0|]. split; [exact E7|].
  assert (Ht : forall t, trend_at today (<[getDateKey today := entry]> data) = t ->
                 t <> NoData /\ t <> NothingThisWeek).
  { intros t <-. unfold trend_at. cbv zeta. rewrite E0. unfold trendOf.
    cbn [length Nat.eqb andb].
    repeat match goal with |- context [if ?b then _ else _] => destruct b end;
      split; discriminate. }
  split; [by apply (Ht _ eq_refl)|]. split; [by apply (Ht _ eq_refl)|].
  intros Hm. unfold getFrequencyIn30Days_at. cbv zeta.
  rewrite Array_sort_perm, freq_entries_elem. split; [done|]. split; [|lia].
  rewrite freqLoop_counts, lookup_empty. cbn [default]. rewrite Nat.add_0_l.
  change 30%nat with (S 29). rewrite windowEntries_insert_today.
  rewrite occurrences_cons. cbn [label]. rewrite bool_decide_eq_true_2 by done.
  done.
Qed.
